(** * DUC validation notebook: the IoU metric and the sample-list builder

    A shallow embedding of the two pieces of logic written in
    [duc-validation.ipynb]:

    - the cell "Prepare dataset list", which builds [val_lst] and writes
      [val.lst];
    - the cell "Define evaluation metric": [check_label_shapes] and the class
      [IoUMetric] ([__init__], [reset], [update]), with the [get] it inherits.

    Numbers.  Pixel labels and pixel counts are integers ([Z]).  The counters
    [_tp], [_denom] and the metric value are Python/numpy floats; they are
    modelled by exact rationals ([Q]).  The counters only ever hold pixel
    counts, which a binary64 float represents exactly far beyond the size of
    any data set, so accumulation is exact in the source as well; the
    quotients and the final mean are idealised (no rounding).

    Errors.  A Python exception is a value of [exn]; code that can raise
    returns a [res].  Methods of the metric object run in a state-and-error
    monad [M] that keeps the (possibly half-updated) object when an exception
    escapes, as the mutated Python object does. *)

From Stdlib Require Import ZArith QArith Lia Lqa DecimalString.
From Stdlib Require DecimalPos DecimalZ.
From stdpp Require Import base list strings sorting.

Local Open Scope Z_scope.

(** ** Exceptions and fallible results *)

Inductive exn : Set :=
  | ValueError | AssertionError | IndexError | TypeError
  | AttributeError | ZeroDivisionError.

Inductive res (A : Type) : Type :=
  | Ok (a : A)
  | Raise (e : exn).
Arguments Ok {A} a.
Arguments Raise {A} e.

Global Instance res_ret : MRet res := @Ok.
Global Instance res_bind : MBind res := λ A B f r,
  match r with Ok a => f a | Raise e => Raise e end.
Global Instance res_fmap : FMap res := λ A B f r,
  match r with Ok a => Ok (f a) | Raise e => Raise e end.

(** ** The sample-list builder (cell "Prepare dataset list") *)

(** What the builder sees of the disk: the result of [glob.glob] on a
    pattern and [os.path.isfile]. *)
Record FileSystem : Type := {
  glob_glob : string → list string;
  os_path_isfile : string → bool
}.

(** [os.path.join(a, b)] (POSIX) for two components. *)
Definition os_path_join (a b : string) : string :=
  if String.prefix "/" b then b
  else if decide (a = "") then b
  else if String.prefix "/" (String.rev a) then a +:+ b
  else a +:+ "/" +:+ b.

(** [s.replace(old, new)]: every non-overlapping occurrence of [old], found
    left to right, is replaced by [new].  [skip] counts the characters of an
    occurrence still to be dropped.  With an empty [old], [new] is put before
    every character and at the end. *)
Fixpoint replace_from (old new : string) (skip : nat) (s : string) : string :=
  match s with
  | EmptyString => if decide (old = "") then new else ""
  | String c s' =>
      match skip with
      | S k => replace_from old new k s'
      | O =>
          if decide (old = "") then new +:+ String c (replace_from old new 0 s')
          else if String.prefix old s
               then new +:+ replace_from old new (String.length old - 1) s'
               else String c (replace_from old new 0 s')
      end
  end.

Definition replace (s old new : string) : string := replace_from old new 0 s.

(** [str(n)] of an integer. *)
Definition str (n : Z) : string := NilZero.string_of_int (Z.to_int n).

(** [all_images.sort()]: strings in lexicographic order of their bytes. *)
Definition sort (l : list string) : list string := merge_sort String.le l.

(** The label path derived from an image path. *)
Definition label_path (data_dir label_dir p : string) : string :=
  replace (replace p data_dir label_dir) "leftImg8bit" "gtFine_labelIds".

(** [for i in range(1, 8): val_lst.append([...])] *)
Definition append_crops (index : Z) (p l : string) (val_lst : list (list string))
    : list (list string) :=
  foldl (λ acc i, acc ++ [[str index; p; l; "512"; str (256 * i)]])
        val_lst (seqZ 1 7).

(** [for p in all_images: ...], threading [index] and [val_lst]. *)
Fixpoint scan_images (fs : FileSystem) (data_dir label_dir : string)
    (all_images : list string) (index : Z) (val_lst : list (list string))
    : Z * list (list string) :=
  match all_images with
  | [] => (index, val_lst)
  | p :: rest =>
      let l := label_path data_dir label_dir p in
      if os_path_isfile fs l then
        let index := index + 1 in
        scan_images fs data_dir label_dir rest index (append_crops index p l val_lst)
      else scan_images fs data_dir label_dir rest index val_lst
  end.

Definition all_images (fs : FileSystem) (data_dir : string) : list string :=
  sort (glob_glob fs (os_path_join data_dir "*/*.png")).

Definition val_lst (fs : FileSystem) (data_dir label_dir : string) : list (list string) :=
  snd (scan_images fs data_dir label_dir (all_images fs data_dir) 0 []).

(** ['\t'.join(line)] followed by the newline [print] adds; [val_out] is
    the text written to [val.lst]. *)
Definition tab : string := String (Ascii.ascii_of_nat 9) "".
Definition newline : string := String (Ascii.ascii_of_nat 10) "".

Definition print_line (line : list string) : string :=
  String.concat tab line +:+ newline.

Definition val_out (fs : FileSystem) (data_dir label_dir : string) : string :=
  foldl (λ out line, out +:+ print_line line) "" (val_lst fs data_dir label_dir).

(** The 7 records of the matched pair number [index]. *)
Definition crops (index : Z) (p l : string) : list (list string) :=
  (λ k, [str index; p; l; "512"%string; str (256 * k)]) <$> [1; 2; 3; 4; 5; 6; 7].

(** The images, in sorted order, whose derived label path is a file. *)
Definition matched_images (fs : FileSystem) (data_dir label_dir : string) : list string :=
  filter (λ p, os_path_isfile fs (label_path data_dir label_dir p) = true)
         (all_images fs data_dir).

(** The records whose image-path field is [p]. *)
Definition records_of (p : string) (recs : list (list string)) : list (list string) :=
  filter (λ r, r !! 1%nat = Some p) recs.

(** ** numpy arrays of int32 and the numpy operations used by [update] *)

(** An array after [.astype('int32')]: its shape and its elements in
    row-major order (what [.flat] iterates over). *)
Record ndarray : Set := { shape : list nat; flat : list Z }.

(** Python's [len(x)] and [x.shape], as far as [check_label_shapes] applies
    them: to a list and to a numpy array. *)
Class PySized (A : Type) : Type := {
  py_len : A → res nat;
  py_shape : A → res (list nat)
}.

(** A Python list has a length and no attribute [shape]. *)
Global Instance list_sized {A} : PySized (list A) := {|
  py_len l := Ok (length l);
  py_shape _ := Raise AttributeError
|}.

(** [len] of an array is the size of its first dimension; a 0-d array is
    unsized. *)
Global Instance ndarray_sized : PySized ndarray := {|
  py_len a := match shape a with [] => Raise TypeError | n :: _ => Ok n end;
  py_shape a := Ok (shape a)
|}.

(** numpy broadcasting of two 1-d operands: equal sizes pair up elementwise,
    an operand of size 1 is stretched, anything else cannot be broadcast. *)
Definition broadcast {A B} (a : list A) (b : list B) : res (list (A * B)) :=
  if decide (length a = length b) then Ok (zip a b)
  else match a, b with
       | [x], _ => Ok ((λ y, (x, y)) <$> b)
       | _, [y] => Ok ((λ x, (x, y)) <$> a)
       | _, _ => Raise ValueError
       end.

Definition np_logical_and (a b : list bool) : res (list bool) :=
  fmap (M:=list) (uncurry andb) <$> broadcast a b.

Definition np_logical_or (a b : list bool) : res (list bool) :=
  fmap (M:=list) (uncurry orb) <$> broadcast a b.

(** [m.sum()] of a boolean array: the number of [True] entries. *)
Definition np_sum (m : list bool) : Z :=
  foldr (λ b n, Z.b2z b + n) 0 m.

(** [a.flat == j] *)
Definition flat_eq (a : ndarray) (j : Z) : list bool :=
  (λ x, x =? j) <$> flat a.

(** ** [check_label_shapes] *)

Definition check_label_shapes {A B} `{PySized A, PySized B}
    (labels : A) (preds : B) (shape : Z) : res unit :=
  if shape =? 0 then
    label_shape ← py_len labels; pred_shape ← py_len preds;
    if decide (label_shape ≠ pred_shape) then Raise ValueError else Ok tt
  else
    label_shape ← py_shape labels; pred_shape ← py_shape preds;
    if decide (label_shape ≠ pred_shape) then Raise ValueError else Ok tt.

(** ** The metric object *)

(** Attributes of an [IoUMetric] instance.  [sum_metric] and [num_inst] are
    bound only by [update]; [None] stands for "attribute not set". *)
Record IoUMetric : Type := {
  name : string;
  _ignore_label : Z;
  _label_num : Z;
  _tp : list Q;
  _denom : list Q;
  sum_metric : option Q;
  num_inst : option Z
}.

Definition set_tp (v : list Q) (s : IoUMetric) : IoUMetric :=
  {| name := name s; _ignore_label := _ignore_label s;
     _label_num := _label_num s; _tp := v; _denom := _denom s;
     sum_metric := sum_metric s; num_inst := num_inst s |}.

Definition set_denom (v : list Q) (s : IoUMetric) : IoUMetric :=
  {| name := name s; _ignore_label := _ignore_label s;
     _label_num := _label_num s; _tp := _tp s; _denom := v;
     sum_metric := sum_metric s; num_inst := num_inst s |}.

Definition set_metric (v : Q) (n : Z) (s : IoUMetric) : IoUMetric :=
  {| name := name s; _ignore_label := _ignore_label s;
     _label_num := _label_num s; _tp := _tp s; _denom := _denom s;
     sum_metric := Some v; num_inst := Some n |}.

(** Methods: a state-and-error monad over the object. *)
Definition M (A : Type) : Type := IoUMetric → res A * IoUMetric.

Global Instance M_ret : MRet M := λ A a s, (Ok a, s).
Global Instance M_bind : MBind M := λ A B f m s,
  match m s with
  | (Ok a, s') => f a s'
  | (Raise e, s') => (Raise e, s')
  end.

Definition raise {A} (e : exn) : M A := λ s, (Raise e, s).
Definition lift {A} (r : res A) : M A := λ s, (r, s).
Definition gets {A} (f : IoUMetric → A) : M A := λ s, (Ok (f s), s).
Definition modify (f : IoUMetric → IoUMetric) : M unit := λ s, (Ok tt, f s).

(** [for x in xs: body x] *)
Fixpoint for_ {A} (xs : list A) (body : A → M unit) : M unit :=
  match xs with
  | [] => mret tt
  | x :: xs' => body x ≫= λ _, for_ xs' body
  end.

(** [eps = 1e-6] *)
Definition eps : Q := 1 # 1000000.

(** [reset]: both counter lists become [[0.0] * self._label_num]; nothing
    else is assigned. *)
Definition reset (s : IoUMetric) : IoUMetric :=
  set_denom (replicate (Z.to_nat (_label_num s)) 0%Q)
    (set_tp (replicate (Z.to_nat (_label_num s)) 0%Q) s).

(** [IoUMetric(ignore_label, label_num, name)]: the two parameters are
    stored, then the base-class constructor stores the name and calls
    [self.reset()], which is the override above. *)
Definition IoUMetric_init (ignore_label label_num : Z) (nm : string) : IoUMetric :=
  reset {| name := nm; _ignore_label := ignore_label; _label_num := label_num;
           _tp := []; _denom := []; sum_metric := None; num_inst := None |}.

(** [met = IoUMetric(ignore_label=255, label_num=19, name="IoU")] *)
Definition met : IoUMetric := IoUMetric_init 255 19 "IoU".

(** The arrays handed to [update] are MXNet [NDArray]s.  Their conversion to
    int32 numpy arrays is library code: [asnumpy_int32 l] stands for
    [l.asnumpy().astype('int32')] and [argmax_channel_int32 p] for
    [mx.ndarray.argmax_channel(p).asnumpy().astype('int32')]. *)
Class NDArrayOps (NDArray : Type) : Type := {
  asnumpy_int32 : NDArray → ndarray;
  argmax_channel_int32 : NDArray → ndarray
}.

(** For concrete runs the arrays are given as they are after conversion
    (a label array, and the arg-max of the scores): [NDArray] is [ndarray]
    and both conversions are the identity. *)
Global Instance ndarray_ops : NDArrayOps ndarray :=
  {| asnumpy_int32 a := a; argmax_channel_int32 a := a |}.

(** The two counts of one array pair for class [j]:
    [tp = np.logical_and(pred_cur, gt_cur).sum()] and
    [denom = np.logical_or(pred_cur, gt_cur).sum()
             - np.logical_and(pred_cur, label.flat == ignore_label).sum()]. *)
Definition sample_tp (label pred_label : ndarray) (j : Z) : res Z :=
  let pred_cur := flat_eq pred_label j in
  let gt_cur := flat_eq label j in
  np_sum <$> np_logical_and pred_cur gt_cur.

Definition sample_denom (ignore_label : Z) (label pred_label : ndarray) (j : Z) : res Z :=
  let pred_cur := flat_eq pred_label j in
  let gt_cur := flat_eq label j in
  u ← np_logical_or pred_cur gt_cur;
  i ← np_logical_and pred_cur (flat_eq label ignore_label);
  mret (np_sum u - np_sum i).

(** [self._tp[j]], [self._denom[j]]: reading past the end of a Python list
    raises. *)
Definition getitem {A} (f : IoUMetric → list A) (j : nat) : M A := λ s,
  match f s !! j with
  | Some x => (Ok x, s)
  | None => (Raise IndexError, s)
  end.

(** Body of [for j in range(self._label_num)], with the local [iou]
    threaded through. *)
Definition update_class (label pred_label : ndarray) (j : nat) (iou : Q) : M Q :=
  tp ← lift (sample_tp label pred_label (Z.of_nat j));
  ignore_label ← gets _ignore_label;
  denom ← lift (sample_denom ignore_label label pred_label (Z.of_nat j));
  _ ← (if tp <=? denom then mret tt else raise AssertionError);
  tp_j ← getitem _tp j;
  _ ← modify (λ s, set_tp (<[j := (tp_j + inject_Z tp)%Q]> (_tp s)) s);
  denom_j ← getitem _denom j;
  _ ← modify (λ s, set_denom (<[j := (denom_j + inject_Z denom)%Q]> (_denom s)) s);
  tp_j ← getitem _tp j;
  denom_j ← getitem _denom j;
  mret (iou + tp_j / (denom_j + eps))%Q.

Fixpoint class_loop (label pred_label : ndarray) (js : list nat) (iou : Q) : M Q :=
  match js with
  | [] => mret iou
  | j :: js' => update_class label pred_label j iou ≫= class_loop label pred_label js'
  end.

Section Update.
Context {NDArray : Type} {ops : NDArrayOps NDArray}.

(** Body of [for i in range(len(labels))], given [labels[i]] and
    [preds[i]]. *)
Definition update_sample (l p : NDArray) : M unit :=
  let pred_label := argmax_channel_int32 p in
  let label := asnumpy_int32 l in
  _ ← lift (check_label_shapes label pred_label 0);
  label_num ← gets _label_num;
  iou ← class_loop label pred_label (seq 0 (Z.to_nat label_num)) 0%Q;
  iou ← (if label_num =? 0 then raise ZeroDivisionError
         else mret (iou / inject_Z label_num)%Q);
  modify (set_metric iou 1).

Definition update (labels preds : list NDArray) : M unit :=
  _ ← lift (check_label_shapes labels preds 0);
  for_ (seq 0 (length labels)) (λ i,
    p ← from_option mret (raise IndexError) (preds !! i);
    l ← from_option mret (raise IndexError) (labels !! i);
    update_sample l p).

End Update.

(** A Python float: a finite value or [nan]. *)
Inductive pyfloat : Set := Fin (q : Q) | NaN.

(** [get] is not defined in the notebook: the class inherits it from the
    MXNet base class [mx.metric.EvalMetric] (library code, as the numpy
    operations above).  It returns the name and [sum_metric / num_inst], the
    two attributes [update] assigns, or [nan] when [num_inst] is 0; reading an
    attribute that was never assigned raises. *)
Definition get (s : IoUMetric) : res (string * pyfloat) :=
  match num_inst s with
  | None => Raise AttributeError
  | Some n =>
      if n =? 0 then Ok (name s, NaN)
      else match sum_metric s with
           | None => Raise AttributeError
           | Some v => Ok (name s, Fin (v / inject_Z n)%Q)
           end
  end.

(** ** Pixel pairs and running totals, as the statements below name them *)

(** The (prediction, label) pairs that the masks of one array pair compare,
    after broadcasting. *)
Definition pixels (label pred_label : ndarray) : res (list (Z * Z)) :=
  broadcast (flat pred_label) (flat label).

(** Number of elements satisfying [f]. *)
Definition count {A} (f : A → bool) (l : list A) : Z := np_sum (f <$> l).

(** Pixels predicted [j] and labelled [j]. *)
Definition pix_tp (j : Z) (pix : list (Z * Z)) : Z :=
  count (λ '(p, l), (p =? j) && (l =? j)) pix.

(** Pixels predicted [j] or labelled [j], minus pixels predicted [j] and
    labelled [ign]. *)
Definition pix_denom (ign j : Z) (pix : list (Z * Z)) : Z :=
  count (λ '(p, l), (p =? j) || (l =? j)) pix
  - count (λ '(p, l), (p =? j) && (l =? ign)) pix.

Global Instance Q_inhabited : Inhabited Q := populate 0%Q.

(** One class's IoU term [tp[j] / (denom[j] + eps)]. *)
Definition iou_term (tp denom : list Q) (j : nat) : Q :=
  ((tp !!! j) / ((denom !!! j) + eps))%Q.

(** The terms of the classes [js] added to [iou], left to right. *)
Definition iou_sum (tp denom : list Q) (js : list nat) (iou : Q) : Q :=
  foldl (λ acc j, acc + iou_term tp denom j)%Q iou js.

(** The mean over the classes [0 .. n-1]. *)
Definition mean_iou (n : Z) (tp denom : list Q) : Q :=
  (iou_sum tp denom (seq 0 (Z.to_nat n)) 0 / inject_Z n)%Q.

(** Counters after the counts [f j] were added to the classes
    [k .. k+m-1]. *)
Definition add_range (k m : nat) (f : nat → Z) (v : list Q) : list Q :=
  imap (λ i x, if bool_decide (k ≤ i < k + m)%nat then (x + inject_Z (f i))%Q else x) v.

Definition add_counts (f : nat → Z) (v : list Q) : list Q :=
  imap (λ i x, (x + inject_Z (f i))%Q) v.

(** State after one array pair with pixel pairs [pix] was scored. *)
Definition add_sample (pix : list (Z * Z)) (s : IoUMetric) : IoUMetric :=
  let tp' := add_counts (λ j, pix_tp (Z.of_nat j) pix) (_tp s) in
  let denom' := add_counts (λ j, pix_denom (_ignore_label s) (Z.of_nat j) pix) (_denom s) in
  set_metric (mean_iou (_label_num s) tp' denom') 1 (set_denom denom' (set_tp tp' s)).

(** Well-formed objects: at least one class, the ignore label is not a class
    index, one counter per class. *)
Definition wf (s : IoUMetric) : Prop :=
  0 < _label_num s ∧ ¬ (0 ≤ _ignore_label s < _label_num s) ∧
  length (_tp s) = Z.to_nat (_label_num s) ∧
  length (_denom s) = Z.to_nat (_label_num s).

(** Sum of a list of integers. *)
Definition Zsum (l : list Z) : Z := foldr Z.add 0 l.

(** The arg-max prediction equals the ground truth on every pixel whose
    label is not [ign]. *)
Definition exact_match (ign : Z) (label pred_label : ndarray) : Prop :=
  Forall2 (λ l p, l ≠ ign → p = l) (flat label) (flat pred_label).

(** Arrays as MXNet hands them over have at least one dimension. *)
Definition sized (a : ndarray) : Prop := shape a ≠ [].

Section Runs.
Context {NDArray : Type} {ops : NDArrayOps NDArray}.

(** The checks one array pair has to pass, and the pixel pairs it then
    contributes. *)
Definition sample_pixels (l p : NDArray) : res (list (Z * Z)) :=
  _ ← check_label_shapes (asnumpy_int32 l) (argmax_channel_int32 p) 0;
  pixels (asnumpy_int32 l) (argmax_channel_int32 p).

(** The pixel pairs of an array pair ([[]] when the masks cannot be
    broadcast). *)
Definition sample_pix (lp : NDArray * NDArray) : list (Z * Z) :=
  match pixels (asnumpy_int32 lp.1) (argmax_channel_int32 lp.2) with
  | Ok pix => pix
  | Raise _ => []
  end.

(** The outcome of scoring array pairs one after the other, and the pairs
    scored: all of them, or those before the first one that raises. *)
Fixpoint score (samples : list (NDArray * NDArray)) : res unit * list (NDArray * NDArray) :=
  match samples with
  | [] => (Ok tt, [])
  | lp :: rest =>
      match sample_pixels lp.1 lp.2 with
      | Ok _ => (λ r, (r.1, lp :: r.2)) (score rest)
      | Raise e => (Raise e, [])
      end
  end.

(** A batch: the two lists given to one [update] call. *)
Definition batch : Type := list NDArray * list NDArray.

(** All array pairs of a series of batches. *)
Definition samples_of (bs : list batch) : list (NDArray * NDArray) :=
  b ← bs; zip b.1 b.2.

(** The array pairs that [update] scores before it returns or raises. *)
Definition scored (b : batch) : list (NDArray * NDArray) :=
  if decide (length b.1 = length b.2) then (score (zip b.1 b.2)).2 else [].

Definition scored_pairs (bs : list batch) : list (NDArray * NDArray) :=
  b ← bs; scored b.

(** A series of [update] calls, one per batch, stopped by the first
    exception. *)
Definition updates (bs : list batch) : M unit :=
  for_ bs (λ b, update b.1 b.2).

(** The object after a series of [update] calls, each of which may return or
    raise (the caller goes on). *)
Definition calls (bs : list batch) (s : IoUMetric) : IoUMetric :=
  foldl (λ s b, (update b.1 b.2 s).2) s bs.

Definition add_samples (samples : list (NDArray * NDArray)) (s : IoUMetric) : IoUMetric :=
  foldl (λ s lp, add_sample (sample_pix lp) s) s samples.

(** Pixels of class [j] counted over a list of array pairs. *)
Definition total_tp (j : Z) (samples : list (NDArray * NDArray)) : Z :=
  Zsum ((λ lp, pix_tp j (sample_pix lp)) <$> samples).

Definition total_denom (ign j : Z) (samples : list (NDArray * NDArray)) : Z :=
  Zsum ((λ lp, pix_denom ign j (sample_pix lp)) <$> samples).

(** Objects the notebook's metric can evolve into: [met] itself, and what
    [reset] and [update] (whether it returns or raises) leave behind. *)
Inductive reachable : IoUMetric → Prop :=
  | reach_met : reachable met
  | reach_reset s : reachable s → reachable (reset s)
  | reach_update s labels preds : reachable s → reachable (update labels preds s).2.

(** The per-class running counters after the array pairs [samples] were
    scored, starting from zero. *)
Definition running_tp (n : Z) (samples : list (NDArray * NDArray)) : list Q :=
  (λ j : nat, inject_Z (total_tp (Z.of_nat j) samples)) <$> seq 0 (Z.to_nat n).

Definition running_denom (ign n : Z) (samples : list (NDArray * NDArray)) : list Q :=
  (λ j : nat, inject_Z (total_denom ign (Z.of_nat j) samples)) <$> seq 0 (Z.to_nat n).

End Runs.

(** ** Concrete runs *)

(** One pixel, labelled 0. *)
Definition px0 : ndarray := {| shape := [1%nat]; flat := [0] |}.
(** Two pixels: labels 0 and 1; and a prediction of class 1 for both. *)
Definition lab01 : ndarray := {| shape := [2%nat]; flat := [0; 1] |}.
Definition pred11 : ndarray := {| shape := [2%nat]; flat := [1; 1] |}.
(** A 1x1 label array and a 1x5 prediction array. *)
Definition lab1x1 : ndarray := {| shape := [1%nat; 1%nat]; flat := [0] |}.
Definition pred1x5 : ndarray := {| shape := [1%nat; 5%nat]; flat := [0; 0; 0; 0; 0] |}.

(** The metric after [update([px0], [px0])]. *)
Definition met1 : IoUMetric := (update [px0] [px0] met).2.

(** ** Shapes and counters *)

(** Two flattened arrays that numpy can combine elementwise. *)
Definition broadcastable (a b : ndarray) : Prop :=
  length (flat a) = length (flat b) ∨ length (flat a) = 1%nat ∨ length (flat b) = 1%nat.

(** An array that holds as many elements as its shape says. *)
Definition well_shaped (a : ndarray) : Prop :=
  length (flat a) = foldr Nat.mul 1%nat (shape a).

(** Counters that hold integer counts [T], [D] with [0 <= T[j] <= D[j]]. *)
Definition counts_ok (n : nat) (tp denom : list Q) : Prop :=
  ∃ T D : list Z,
    tp = inject_Z <$> T ∧ denom = inject_Z <$> D ∧
    length T = n ∧ length D = n ∧
    Forall2 (λ t d, 0 ≤ t ≤ d) T D.

(** ** The evaluation loop (cell "Compute evaluations") *)

(** ['{} / {} batches done'.format(nbatch, int(3500/batch_size))]; the
    quotient of two Python 2 integers is the floor quotient. *)
Definition progress_line (batch_size nbatch : Z) : res string :=
  if batch_size =? 0 then Raise ZeroDivisionError
  else Ok (str nbatch +:+ " / " +:+ str (3500 / batch_size) +:+ " batches done").

(** The progress lines of the batches [nbatch .. nbatch + done - 1]: one for
    each batch whose number is a multiple of 10. *)
Definition progress_lines (batch_size nbatch : Z) (done_ : nat) : list string :=
  (λ n, str n +:+ " / " +:+ str (3500 / batch_size) +:+ " batches done")
    <$> filter (λ n, n `mod` 10 = 0) (seqZ nbatch (Z.of_nat done_)).

Section EvalLoop.
Context {NDArray : Type} {ops : NDArrayOps NDArray}.

(** [for nbatch, eval_batch in enumerate(val_dataloader): ...].  The data
    loader and the forward pass are library code: the loop is given, for
    each batch, the pair of [eval_batch.label] and [mod.get_outputs()].
    [out] collects the printed lines; an exception ends the loop. *)
Fixpoint batch_loop (batch_size nbatch : Z) (bs : list batch)
    (s : IoUMetric) (out : list string) : res unit * IoUMetric * list string :=
  match bs with
  | [] => (Ok tt, s, out)
  | b :: rest =>
      match update b.1 b.2 s with
      | (Raise e, s') => (Raise e, s', out)
      | (Ok _, s') =>
          if nbatch `mod` 10 =? 0 then
            match progress_line batch_size nbatch with
            | Ok line => batch_loop batch_size (nbatch + 1) rest s' (out ++ [line])
            | Raise e => (Raise e, s', out)
            end
          else batch_loop batch_size (nbatch + 1) rest s' out
      end
  end.

(** [metric.reset()] followed by the loop. *)
Definition evaluate (batch_size : Z) (bs : list batch) (s : IoUMetric)
    : res unit * IoUMetric * list string :=
  batch_loop batch_size 0 bs (reset s) [].

End EvalLoop.

(** ** Concrete inputs of the builder and further metrics *)

(** A disk with three images, of which two have a label file; [glob] lists
    them out of order. *)
Definition disk : FileSystem := {|
  glob_glob pat :=
    if decide (pat = "data/*/*.png")
    then ["data/b/y_leftImg8bit.png"; "data/a/x_leftImg8bit.png";
          "data/c/z_leftImg8bit.png"]
    else [];
  os_path_isfile p :=
    bool_decide (p ∈ ["labels/a/x_gtFine_labelIds.png"; "labels/b/y_gtFine_labelIds.png"])
|}%string.

(** The same files, listed by [glob] in another order. *)
Definition disk_swapped : FileSystem := {|
  glob_glob pat :=
    if decide (pat = "data/*/*.png")
    then ["data/a/x_leftImg8bit.png"; "data/b/y_leftImg8bit.png";
          "data/c/z_leftImg8bit.png"]
    else [];
  os_path_isfile := os_path_isfile disk
|}%string.

(** A metric without classes, and one whose ignore label is a class. *)
Definition met_no_class : IoUMetric := IoUMetric_init 255 0 "IoU".
Definition met_ignore0 : IoUMetric := IoUMetric_init 0 19 "IoU".

(** ** Exact predictions and histories of calls *)

(** Number of the classes [0 .. n-1] whose true-positive counter is not 0. *)
Definition classes_present (tp : list Q) (n : nat) : Z :=
  count (λ j, negb (Qeq_bool (tp !!! j) 0)) (seq 0 n).

Section Histories.
Context {NDArray : Type} {ops : NDArrayOps NDArray}.

(** Number of pixels labelled [j] in a list of array pairs. *)
Definition labelled (j : Z) (samples : list (NDArray * NDArray)) : Z :=
  Zsum ((λ lp, count (λ x, x =? j) (flat (asnumpy_int32 lp.1))) <$> samples).

(** A call made on the notebook's metric. *)
Inductive call : Type :=
  | call_reset
  | call_update (labels preds : list NDArray).

Definition do_call (c : call) (s : IoUMetric) : IoUMetric :=
  match c with
  | call_reset => reset s
  | call_update labels preds => (update labels preds s).2
  end.

(** The metric after the calls [cs] were made on [met], in that order. *)
Definition run (cs : list call) : IoUMetric := foldl (λ s c, do_call c s) met cs.

(** The array pairs a call scores. *)
Definition scored_by (c : call) : list (NDArray * NDArray) :=
  match c with
  | call_reset => []
  | call_update labels preds => scored (labels, preds)
  end.

End Histories.

(** Three pixels, the first labelled with the ignore label 255; and a
    prediction of class 1 for all three. *)
Definition lab255 : ndarray := {| shape := [3%nat]; flat := [255; 1; 0] |}.
Definition pred111 : ndarray := {| shape := [3%nat]; flat := [1; 1; 1] |}.

(** ** Properties of the numpy operations *)

Lemma count_cons {A} (f : A → bool) x l :
  count f (x :: l) = Z.b2z (f x) + count f l.
Proof. done. Qed.

Lemma count_nonneg {A} (f : A → bool) l : 0 ≤ count f l.
Proof.
  induction l as [|x l IH]; [done|].
  rewrite count_cons. destruct (f x); simpl; lia.
Qed.

Lemma broadcast_fmap {A B A' B'} (f : A → A') (g : B → B') (a : list A) (b : list B) :
  broadcast (f <$> a) (g <$> b) = fmap (M:=list) (prod_map f g) <$> broadcast a b.
Proof.
  unfold broadcast. rewrite !length_fmap.
  destruct (decide (length a = length b)) as [Hl|Hl]; simpl.
  - f_equal. revert b Hl. induction a as [|x a IH]; intros [|y b] Hl; simpl in *;
      try done. f_equal. apply IH. lia.
  - destruct a as [|x [|x' a]], b as [|y [|y' b]]; simpl in *; try done.
    all: f_equal; rewrite <- ?list_fmap_compose; try done.
    all: repeat f_equal;  rewrite <- ?list_fmap_compose; try done.
Qed.

Lemma np_sum_masks {A B} (op : bool → bool → bool) (f : A → bool) (g : B → bool)
    (pix : list (A * B)) :
  np_sum (uncurry op <$> (prod_map f g <$> pix)) = count (λ '(p, l), op (f p) (g l)) pix.
Proof.
  unfold count. rewrite <- list_fmap_compose. f_equal.
  apply list_fmap_ext. by intros _ [p l] _.
Qed.

Lemma sample_tp_pixels label pred_label j :
  sample_tp label pred_label j = pix_tp j <$> pixels label pred_label.
Proof.
  unfold sample_tp, np_logical_and, flat_eq, pixels.
  rewrite broadcast_fmap.
  destruct (broadcast _ _) as [pix|e]; simpl; [|done].
  f_equal. apply np_sum_masks.
Qed.

Lemma sample_denom_pixels ign label pred_label j :
  sample_denom ign label pred_label j = pix_denom ign j <$> pixels label pred_label.
Proof.
  unfold sample_denom, np_logical_and, np_logical_or, flat_eq, pixels.
  rewrite !broadcast_fmap.
  destruct (broadcast _ _) as [pix|e]; simpl; [|done].
  f_equal. unfold pix_denom. by rewrite !np_sum_masks.
Qed.

Lemma pix_tp_le_denom ign j pix : j ≠ ign → pix_tp j pix ≤ pix_denom ign j pix.
Proof.
  intros Hj. unfold pix_tp, pix_denom.
  induction pix as [|[p l] pix IH]; [done|].
  rewrite !count_cons.
  destruct (Z.eqb_spec p j), (Z.eqb_spec l j), (Z.eqb_spec l ign); simpl; lia.
Qed.

Lemma pix_denom_not_ignored ign j pix :
  j ≠ ign →
  pix_denom ign j pix
  = count (λ '(p, l), ((p =? j) || (l =? j)) && negb (l =? ign)) pix.
Proof.
  intros Hj. unfold pix_denom.
  induction pix as [|[p l] pix IH]; [done|].
  rewrite !count_cons.
  destruct (Z.eqb_spec p j), (Z.eqb_spec l j), (Z.eqb_spec l ign); simpl; lia.
Qed.

(** ** The class loop and the per-pair step of [update] *)

Lemma set_tp_denom_id s : set_denom (_denom s) (set_tp (_tp s) s) = s.
Proof. by destruct s. Qed.

Lemma add_range_0 k f v : add_range k 0 f v = v.
Proof.
  apply list_eq; intros i. unfold add_range. rewrite list_lookup_imap.
  destruct (v !! i); simpl; [|done]. case_bool_decide; [lia|done].
Qed.

Lemma add_range_S k m f (v : list Q) x :
  v !! k = Some x →
  add_range (S k) m f (<[k := (x + inject_Z (f k))%Q]> v) = add_range k (S m) f v.
Proof.
  intros Hk. apply list_eq; intros i. unfold add_range.
  rewrite !list_lookup_imap. destruct (decide (i = k)) as [->|Hne].
  - rewrite list_lookup_insert_eq by (by eapply lookup_lt_Some).
    rewrite Hk. simpl. repeat case_bool_decide; try lia; done.
  - rewrite list_lookup_insert_ne by done.
    destruct (v !! i); simpl; [|done].
    repeat case_bool_decide; try lia; done.
Qed.

Lemma add_range_lookup_lo k m f (v : list Q) x :
  v !! k = Some x → add_range k (S m) f v !!! k = (x + inject_Z (f k))%Q.
Proof.
  intros Hk. apply list_lookup_total_correct. unfold add_range.
  rewrite list_lookup_imap, Hk. simpl. case_bool_decide; [done|lia].
Qed.

Lemma add_range_all n f (v : list Q) :
  length v = n → add_range 0 n f v = add_counts f v.
Proof.
  intros <-.
  apply list_eq; intros i. unfold add_range, add_counts.
  rewrite !list_lookup_imap. destruct (v !! i) eqn:Hi; simpl; [|done].
  apply lookup_lt_Some in Hi. case_bool_decide; [done|lia].
Qed.

Lemma Qplus_inject_Z_0 (x : Q) : (x + inject_Z 0)%Q = x.
Proof.
  destruct x as [p q]. unfold Qplus, inject_Z. simpl.
  by rewrite Z.mul_1_r, Z.add_0_r, Pos.mul_1_r.
Qed.

Lemma Qplus_inject_Z_assoc (x : Q) (a b : Z) :
  (x + inject_Z a + inject_Z b)%Q = (x + inject_Z (a + b))%Q.
Proof.
  destruct x as [p q]. unfold Qplus, inject_Z. simpl.
  rewrite !Pos.mul_1_r. f_equal. lia.
Qed.

Lemma add_counts_0 (v : list Q) : add_counts (λ _, 0) v = v.
Proof.
  apply list_eq; intros i. unfold add_counts. rewrite list_lookup_imap.
  destruct (v !! i); simpl; [|done]. by rewrite Qplus_inject_Z_0.
Qed.

Lemma add_counts_add f g (v : list Q) :
  add_counts g (add_counts f v) = add_counts (λ j, f j + g j) v.
Proof.
  apply list_eq; intros i. unfold add_counts. rewrite !list_lookup_imap.
  destruct (v !! i); simpl; [|done]. by rewrite Qplus_inject_Z_assoc.
Qed.

Lemma update_class_ok label pred_label pix j iou s x y :
  pixels label pred_label = Ok pix →
  Z.of_nat j ≠ _ignore_label s →
  _tp s !! j = Some x → _denom s !! j = Some y →
  update_class label pred_label j iou s =
  let tp := inject_Z (pix_tp (Z.of_nat j) pix) in
  let denom := inject_Z (pix_denom (_ignore_label s) (Z.of_nat j) pix) in
  (Ok (iou + (x + tp) / ((y + denom) + eps))%Q,
   set_denom (<[j := (y + denom)%Q]> (_denom s)) (set_tp (<[j := (x + tp)%Q]> (_tp s)) s)).
Proof.
  intros Hpix Hj Hx Hy. unfold update_class, mbind, M_bind, lift, gets, getitem, modify.
  rewrite sample_tp_pixels, sample_denom_pixels, Hpix. simpl.
  pose proof (pix_tp_le_denom (_ignore_label s) (Z.of_nat j) pix Hj) as Hle.
  apply Z.leb_le in Hle. rewrite Hle. simpl. rewrite Hx. simpl. rewrite Hy. simpl.
  rewrite list_lookup_insert_eq by (by eapply lookup_lt_Some). simpl.
  rewrite list_lookup_insert_eq by (by eapply lookup_lt_Some). done.
Qed.

Lemma update_class_raise label pred_label e j iou s :
  pixels label pred_label = Raise e →
  update_class label pred_label j iou s = (Raise e, s).
Proof.
  intros Hpix. unfold update_class, mbind, M_bind, lift.
  by rewrite sample_tp_pixels, Hpix.
Qed.

Lemma class_loop_ok label pred_label pix m : ∀ k iou s,
  pixels label pred_label = Ok pix →
  (k + m ≤ length (_tp s))%nat → (k + m ≤ length (_denom s))%nat →
  (∀ j, (k ≤ j < k + m)%nat → Z.of_nat j ≠ _ignore_label s) →
  class_loop label pred_label (seq k m) iou s =
  let tp' := add_range k m (λ j, pix_tp (Z.of_nat j) pix) (_tp s) in
  let denom' := add_range k m (λ j, pix_denom (_ignore_label s) (Z.of_nat j) pix) (_denom s) in
  (Ok (iou_sum tp' denom' (seq k m) iou), set_denom denom' (set_tp tp' s)).
Proof.
  induction m as [|m IH]; intros k iou s Hpix Htp Hden Hign; simpl.
  - by rewrite !add_range_0, set_tp_denom_id.
  - destruct (lookup_lt_is_Some_2 (_tp s) k) as [x Hx]; [lia|].
    destruct (lookup_lt_is_Some_2 (_denom s) k) as [y Hy]; [lia|].
    unfold mbind at 1, M_bind at 1.
    rewrite (update_class_ok _ _ pix _ _ _ x y) by (try done; apply Hign; lia).
    cbv beta iota zeta. rewrite IH; simpl; rewrite ?length_insert; try done; try lia.
    2:{ intros j Hj. apply Hign. lia. }
    rewrite !add_range_S by done.
    do 3 f_equal. unfold iou_term.
    by rewrite (add_range_lookup_lo _ _ _ _ x), (add_range_lookup_lo _ _ _ _ y).
Qed.

Lemma bind_unfold {A B} (m : M A) (f : A → M B) s :
  (m ≫= f) s = match m s with (Ok a, s') => f a s' | (Raise e, s') => (Raise e, s') end.
Proof. done. Qed.

Lemma mret_bind_M {A B} (a : A) (f : A → M B) : (mret a ≫= f) = f a.
Proof. done. Qed.

Lemma for_fmap {A B} (f : A → B) (xs : list A) (body : B → M unit) :
  for_ (f <$> xs) body = for_ xs (body ∘ f).
Proof. induction xs as [|x xs IH]; [done|]. rewrite fmap_cons. cbn [for_]. by rewrite IH. Qed.

Lemma for_ext {A} (xs : list A) (body body' : A → M unit) s :
  (∀ x s, body x s = body' x s) → for_ xs body s = for_ xs body' s.
Proof.
  intros Hb. revert s. induction xs as [|x xs IH]; intros s; simpl; [done|].
  unfold mbind, M_bind. rewrite Hb. destruct (body' x s) as [[[]|e] s']; [apply IH|done].
Qed.

Lemma wf_add_sample pix s : wf s → wf (add_sample pix s).
Proof.
  intros (Hn & Hign & Htp & Hden). unfold wf, add_sample, add_counts. simpl.
  by rewrite !length_imap.
Qed.

Lemma wf_reset s :
  0 < _label_num s → ¬ (0 ≤ _ignore_label s < _label_num s) → wf (reset s).
Proof.
  intros Hn Hign. unfold wf, reset. simpl. by rewrite !length_replicate.
Qed.

Section UpdateSpec.
Context {NDArray : Type} {ops : NDArrayOps NDArray}.

Lemma update_sample_spec l p s :
  wf s →
  update_sample l p s =
  match sample_pixels l p with
  | Ok pix => (Ok tt, add_sample pix s)
  | Raise e => (Raise e, s)
  end.
Proof.
  intros (Hn & Hign & Htp & Hden).
  unfold update_sample, sample_pixels, mbind at 1, M_bind at 1, lift.
  destruct (check_label_shapes _ _ 0) as [[]|e]; [|done].
  cbv beta iota zeta.
  unfold mbind at 1, M_bind at 1, gets. cbv beta iota zeta.
  unfold mbind at 1, M_bind at 1.
  destruct (pixels _ _) as [pix|e] eqn:Hpix; simpl.
  - rewrite (class_loop_ok _ _ pix) by (rewrite ?Htp, ?Hden; try done; lia).
    cbv beta iota zeta.
    rewrite !add_range_all by done.
    destruct (Z.eqb_spec (_label_num s) 0) as [?|_]; [lia|].
    unfold mbind, M_bind, mret, M_ret, modify, add_sample, mean_iou. simpl. done.
  - destruct (Z.to_nat (_label_num s)) as [|n] eqn:Hnat; [lia|]. simpl.
    unfold mbind at 1, M_bind at 1. by rewrite (update_class_raise _ _ e).
Qed.

Lemma update_zip labels preds s :
  length labels = length preds →
  update labels preds s = for_ (zip labels preds) (λ lp, update_sample lp.1 lp.2) s.
Proof.
  intros Hlen. unfold update, check_label_shapes, mbind at 1, M_bind at 1, lift. simpl.
  rewrite decide_False by (intros Hne; by apply Hne).
  cbv beta iota zeta.
  revert preds Hlen s. induction labels as [|l labels IH]; intros [|p preds] Hlen s;
    simpl in *; try done.
  rewrite !mret_bind_M, !bind_unfold.
  destruct (update_sample l p s) as [[[]|e] s']; [|done].
  rewrite <- fmap_S_seq, for_fmap. rewrite <- IH by lia.
  by apply for_ext.
Qed.

Lemma update_len_mismatch labels preds s :
  length labels ≠ length preds → update labels preds s = (Raise ValueError, s).
Proof.
  intros Hlen. unfold update, check_label_shapes. rewrite bind_unfold. unfold lift. simpl.
  by rewrite decide_True by congruence.
Qed.

Lemma sample_pixels_Ok l p pix :
  sample_pixels l p = Ok pix → sample_pix (l, p) = pix.
Proof.
  unfold sample_pixels, sample_pix. simpl.
  destruct (check_label_shapes _ _ 0) as [[]|e]; simpl; [|done].
  by intros ->.
Qed.

Lemma add_samples_app xs ys s :
  add_samples (xs ++ ys) s = add_samples ys (add_samples xs s).
Proof. apply foldl_app. Qed.

Lemma wf_add_samples samples : ∀ s, wf s → wf (add_samples samples s).
Proof.
  induction samples as [|lp samples IH]; intros s Hwf; [done|].
  apply IH. by apply wf_add_sample.
Qed.

(** The per-pair loop of [update] is [score]: its outcome does not depend on
    the object, and the object it leaves has the scored pairs added. *)
Lemma for_samples_score samples : ∀ s,
  wf s →
  for_ samples (λ lp, update_sample lp.1 lp.2) s
  = ((score samples).1, add_samples (score samples).2 s).
Proof.
  induction samples as [|[l p] samples IH]; intros s Hwf; [done|].
  cbn [for_ score]. rewrite bind_unfold, update_sample_spec by done. simpl.
  destruct (sample_pixels l p) as [pix|e] eqn:Hpix; [|done].
  apply sample_pixels_Ok in Hpix.
  rewrite IH by (by apply wf_add_sample). unfold add_samples. simpl.
  by rewrite Hpix.
Qed.

Lemma update_score labels preds s :
  wf s →
  update labels preds s =
  if decide (length labels = length preds)
  then ((score (zip labels preds)).1, add_samples (score (zip labels preds)).2 s)
  else (Raise ValueError, s).
Proof.
  intros Hwf. case_decide.
  - rewrite update_zip by done. by apply for_samples_score.
  - by apply update_len_mismatch.
Qed.

Lemma score_Ok samples :
  (score samples).1 = Ok tt →
  (score samples).2 = samples ∧
  Forall (λ lp, ∃ pix, sample_pixels lp.1 lp.2 = Ok pix) samples.
Proof.
  induction samples as [|[l p] samples IH]; [by split|].
  cbn [score]. simpl. destruct (sample_pixels l p) as [pix|e] eqn:Hpix; [|done].
  simpl. intros Hr. destruct (IH Hr) as [-> Hall].
  split; [done|]. constructor; [by exists pix|done].
Qed.

Lemma score_Raise samples e :
  (score samples).1 = Raise e →
  ∃ lp, lp ∈ samples ∧ sample_pixels lp.1 lp.2 = Raise e.
Proof.
  induction samples as [|[l p] samples IH]; [done|].
  cbn [score]. simpl. destruct (sample_pixels l p) as [pix|e'] eqn:Hpix; simpl.
  - intros Hr. destruct (IH Hr) as (lp & Hin & He). exists lp. split; [by right|done].
  - intros ?; simplify_eq. exists (l, p). split; [by left|done].
Qed.

Lemma update_state labels preds s :
  wf s → (update labels preds s).2 = add_samples (scored (labels, preds)) s.
Proof.
  intros Hwf. rewrite update_score by done. unfold scored. simpl. by case_decide.
Qed.

Lemma update_Ok labels preds s :
  wf s → (update labels preds s).1 = Ok tt →
  length labels = length preds ∧ scored (labels, preds) = zip labels preds ∧
  Forall (λ lp, ∃ pix, sample_pixels lp.1 lp.2 = Ok pix) (zip labels preds).
Proof.
  intros Hwf. rewrite update_score by done. unfold scored. simpl.
  case_decide; [|done]. simpl. intros Hr. by destruct (score_Ok _ Hr).
Qed.

Lemma update_raise labels preds s e :
  wf s → (update labels preds s).1 = Raise e →
  length labels ≠ length preds ∧ e = ValueError ∨
  ∃ lp, lp ∈ zip labels preds ∧ sample_pixels lp.1 lp.2 = Raise e.
Proof.
  intros Hwf. rewrite update_score by done. case_decide; simpl.
  - intros Hr. right. by apply score_Raise.
  - intros ?; simplify_eq. by left.
Qed.

Lemma calls_state bs : ∀ s,
  wf s → calls bs s = add_samples (scored_pairs bs) s.
Proof.
  induction bs as [|[labels preds] bs IH]; intros s Hwf; [done|].
  unfold calls, scored_pairs in *. cbn [foldl mbind list_bind]. simpl.
  rewrite update_state by done. rewrite add_samples_app.
  apply IH. by apply wf_add_samples.
Qed.

Lemma updates_Ok bs : ∀ s s',
  wf s → updates bs s = (Ok tt, s') →
  s' = calls bs s ∧ scored_pairs bs = samples_of bs.
Proof.
  induction bs as [|[labels preds] bs IH]; intros s s' Hwf Hr.
  - unfold updates in Hr. simpl in Hr. unfold mret, M_ret in Hr. by simplify_eq.
  - unfold updates in Hr. cbn [for_] in Hr. rewrite bind_unfold in Hr. simpl in Hr.
    pose proof (update_state labels preds s Hwf) as Hs.
    pose proof (update_Ok labels preds s Hwf) as Hok.
    destruct (update labels preds s) as [[[]|e] s1]; [|done]. simpl in *.
    destruct Hok as (_ & Hsc & _); [done|]. subst s1.
    destruct (IH _ _ (wf_add_samples _ _ Hwf) Hr) as [-> Hsc'].
    unfold calls, scored_pairs, samples_of in *. cbn [foldl mbind list_bind]. simpl.
    rewrite update_state by done. by rewrite Hsc', Hsc.
Qed.

Lemma add_samples_frame samples s :
  name (add_samples samples s) = name s ∧
  _ignore_label (add_samples samples s) = _ignore_label s ∧
  _label_num (add_samples samples s) = _label_num s.
Proof.
  revert s. induction samples as [|lp samples IH]; intros s; [done|].
  unfold add_samples in *. simpl. by destruct (IH (add_sample (sample_pix lp) s)) as (-> & -> & ->).
Qed.

Lemma add_samples_tp samples : ∀ s,
  _tp (add_samples samples s)
  = add_counts (λ j, total_tp (Z.of_nat j) samples) (_tp s).
Proof.
  induction samples as [|lp samples IH]; intros s.
  - simpl. symmetry. apply add_counts_0. 
  - unfold add_samples in *. simpl. rewrite IH. simpl.
    apply add_counts_add.
Qed.

Lemma add_samples_denom samples : ∀ s,
  _denom (add_samples samples s)
  = add_counts (λ j, total_denom (_ignore_label s) (Z.of_nat j) samples) (_denom s).
Proof.
  induction samples as [|lp samples IH]; intros s.
  - simpl. symmetry. apply add_counts_0. 
  - unfold add_samples in *. simpl. rewrite IH. simpl.
    apply add_counts_add.
Qed.

Lemma add_samples_metric samples s :
  samples ≠ [] →
  let s' := add_samples samples s in
  sum_metric s' = Some (mean_iou (_label_num s) (_tp s') (_denom s')) ∧
  num_inst s' = Some 1.
Proof.
  destruct samples as [|lp samples _] using rev_ind; [done|]. intros _.
  rewrite add_samples_app. simpl.
  by destruct (add_samples_frame samples s) as (_ & _ & ->).
Qed.

End UpdateSpec.

(** ** Arithmetic of the counters and of the IoU terms *)

Lemma Qdiv_1_r_eq (x : Q) : (x / inject_Z 1)%Q = x.
Proof.
  destruct x as [p q]. unfold Qdiv, Qmult, Qinv, inject_Z. simpl.
  by rewrite Z.mul_1_r, Pos.mul_1_r.
Qed.

Lemma add_counts_replicate n (f : nat → Z) :
  add_counts f (replicate n 0%Q) = (λ j : nat, inject_Z (f j)) <$> seq 0 n.
Proof.
  apply list_eq; intros i. unfold add_counts.
  rewrite list_lookup_imap, list_lookup_fmap.
  destruct (decide (i < n)%nat) as [Hi|Hi].
  - rewrite lookup_replicate_2 by done. rewrite lookup_seq_lt by done. simpl. f_equal.
    unfold Qplus, inject_Z. simpl. f_equal. lia.
  - rewrite (proj1 (lookup_replicate_None _ _ _)) by lia. rewrite lookup_seq_ge by lia. done.
Qed.

Lemma Zsum_Permutation (l1 l2 : list Z) : l1 ≡ₚ l2 → Zsum l1 = Zsum l2.
Proof.
  induction 1 as [|x l1 l2 _ IH|x y l|l1 l2 l3 _ IH1 _ IH2]; simpl; lia.
Qed.

Lemma pix_tp_eq_denom ign j (pix : list (Z * Z)) :
  j ≠ ign → Forall (λ '(p, l), l ≠ ign → p = l) pix →
  pix_tp j pix = pix_denom ign j pix.
Proof.
  intros Hj. unfold pix_tp, pix_denom.
  induction 1 as [|[p l] pix Hpl _ IH]; [done|].
  rewrite !count_cons.
  destruct (Z.eqb_spec p j), (Z.eqb_spec l j), (Z.eqb_spec l ign); simpl; lia.
Qed.

Lemma exact_match_pixels ign label pred_label :
  exact_match ign label pred_label →
  ∃ pix, pixels label pred_label = Ok pix ∧ Forall (λ '(p, l), l ≠ ign → p = l) pix.
Proof.
  unfold exact_match, pixels, broadcast. intros Hm.
  pose proof (Forall2_length _ _ _ Hm) as Hlen.
  rewrite decide_True by done. eexists; split; [done|].
  induction Hm as [|l p ls ps Hlp _ IH]; simpl; constructor; [done|].
  apply IH. simpl in Hlen. lia.
Qed.

Lemma pix_tp_nonneg j pix : 0 ≤ pix_tp j pix.
Proof. apply count_nonneg. Qed.

Lemma Zsum_nonneg (l : list Z) : Forall (λ x, 0 ≤ x) l → 0 ≤ Zsum l.
Proof. induction 1; simpl; lia. Qed.

Lemma iou_sum_bounds (tp denom : list Q) (js : list nat) : ∀ iou : Q,
  Forall (λ j, 0 <= iou_term tp denom j < 1)%Q js →
  (iou <= iou_sum tp denom js iou)%Q ∧
  (js = [] ∨ iou_sum tp denom js iou < iou + inject_Z (Z.of_nat (length js)))%Q.
Proof.
  induction js as [|j js IH]; intros iou Hjs.
  - split; [apply Qle_refl|by left].
  - apply Forall_cons in Hjs as [Hj Hjs].
    destruct (IH (iou + iou_term tp denom j)%Q Hjs) as [Hlo Hhi].
    change (iou_sum tp denom (j :: js) iou)
      with (iou_sum tp denom js (iou + iou_term tp denom j)%Q).
    split; [lra|]. right.
    cbn [length]. rewrite Nat2Z.inj_succ, <- Z.add_1_r, inject_Z_plus.
    change (inject_Z 1) with 1%Q.
    destruct Hhi as [->|Hhi]; [|lra].
    unfold iou_sum. cbn [foldl length]. change (inject_Z (Z.of_nat 0)) with 0%Q. lra.
Qed.

Lemma add_counts_ext f g (v : list Q) :
  (∀ j, (j < length v)%nat → f j = g j) → add_counts f v = add_counts g v.
Proof.
  intros Hfg. apply list_eq; intros i. unfold add_counts. rewrite !list_lookup_imap.
  destruct (v !! i) eqn:Hi; simpl; [|done].
  by rewrite Hfg by (by eapply lookup_lt_Some).
Qed.

Lemma wf_met : wf met.
Proof. unfold wf. simpl. split_and!; try done; lia. Qed.

(** ** The claims about the metric *)

Section Claims.
Context {NDArray : Type} {ops : NDArrayOps NDArray}.

Lemma reachable_inv s :
  reachable s →
  wf s ∧ name s = "IoU"%string ∧ _ignore_label s = 255 ∧ _label_num s = 19.
Proof.
  induction 1 as [|s _ (Hwf & Hn & Hi & Hl)|s labels preds _ (Hwf & Hn & Hi & Hl)].
  - split; [apply wf_met|done].
  - split; [|done]. apply wf_reset; simpl; lia.
  - rewrite update_state by done. split; [by apply wf_add_samples|].
    by destruct (add_samples_frame (scored (labels, preds)) s) as (-> & -> & ->).
Qed.

Lemma total_tp_Permutation j (xs ys : list (NDArray * NDArray)) :
  xs ≡ₚ ys → total_tp j xs = total_tp j ys.
Proof. intros Hp. apply Zsum_Permutation. by rewrite Hp. Qed.

Lemma total_denom_Permutation ign j (xs ys : list (NDArray * NDArray)) :
  xs ≡ₚ ys → total_denom ign j xs = total_denom ign j ys.
Proof. intros Hp. apply Zsum_Permutation. by rewrite Hp. Qed.

(** The object a reset metric becomes when the array pairs [sc] are
    scored. *)
Lemma scored_from_reset s0 (sc : list (NDArray * NDArray)) :
  reachable s0 →
  let s := add_samples sc (reset s0) in
  _tp s = running_tp 19 sc ∧
  _denom s = running_denom 255 19 sc ∧
  (sc ≠ [] →
   sum_metric s = Some (mean_iou 19 (running_tp 19 sc) (running_denom 255 19 sc)) ∧
   num_inst s = Some 1 ∧
   get s = Ok ("IoU"%string, Fin (mean_iou 19 (running_tp 19 sc) (running_denom 255 19 sc)))).
Proof.
  intros Hs s. pose proof (reachable_inv _ (reach_reset _ Hs)) as (Hwf & Hn & Hi & Hl).
  assert (_tp s = running_tp 19 sc ∧ _denom s = running_denom 255 19 sc) as [Htp Hden].
  { unfold s. rewrite add_samples_tp, add_samples_denom, Hi.
    unfold reset. simpl. simpl in Hl. rewrite Hl. by rewrite !add_counts_replicate. }
  split_and!; [done..|]. intros Hne.
  destruct (add_samples_metric sc (reset s0) Hne) as [Hm Hni]. fold s in Hm, Hni.
  destruct (add_samples_frame sc (reset s0)) as (Hname & _ & _). fold s in Hname.
  rewrite Hl, Htp, Hden in Hm. split_and!; [done..|].
  unfold get. rewrite Hni, Hm, Hname, Hn. simpl.
  by rewrite Qdiv_1_r_eq.
Qed.

(** C1 (amended): after a reset and any series of [update] calls that
    scored at least one array pair, the counters hold the per-class counts
    summed over every array pair scored since the reset, and the value stored
    by the last scoring, which [get] returns, is the mean over the 19 classes
    of [running_tp[j] / (running_denom[j] + 1e-6)].  When every call returns,
    the pairs scored are all the pairs of all the batches. *)
Theorem C1_get_is_cumulative_mean (s0 : IoUMetric) (bs : list batch) :
  reachable s0 →
  scored_pairs bs ≠ [] →
  let s := calls bs (reset s0) in
  let running_tp := running_tp 19 (scored_pairs bs) in
  let running_denom := running_denom 255 19 (scored_pairs bs) in
  _tp s = running_tp ∧
  _denom s = running_denom ∧
  sum_metric s = Some (mean_iou 19 running_tp running_denom) ∧
  num_inst s = Some 1 ∧
  get s = Ok ("IoU"%string, Fin (mean_iou 19 running_tp running_denom)) ∧
  ((updates bs (reset s0)).1 = Ok tt →
   (updates bs (reset s0)).2 = s ∧ scored_pairs bs = samples_of bs).
Proof.
  intros Hs Hne s. pose proof (reachable_inv _ (reach_reset _ Hs)) as (Hwf & _).
  unfold s. rewrite calls_state by done.
  destruct (scored_from_reset s0 (scored_pairs bs) Hs) as (Htp & Hden & Hget).
  destruct (Hget Hne) as (Hm & Hni & Hg).
  split_and!; [done..|].
  intros Hr. destruct (updates bs (reset s0)) as [r s'] eqn:Hu. simpl in *. subst r.
  destruct (updates_Ok _ _ _ Hwf Hu) as [-> Hsc]. by rewrite calls_state.
Qed.

(** C8: the per-class totals after a series of batches do not depend on the
    order of the batches nor of the array pairs inside them: two series of
    [update] calls that return and score the same array pairs, in any order
    and grouping, leave the same [_tp] and [_denom]. *)
Theorem C8_totals_order_independent (s s1 s2 : IoUMetric) (bs1 bs2 : list batch) :
  reachable s →
  samples_of bs1 ≡ₚ samples_of bs2 →
  updates bs1 s = (Ok tt, s1) →
  updates bs2 s = (Ok tt, s2) →
  _tp s1 = _tp s2 ∧ _denom s1 = _denom s2.
Proof.
  intros Hs Hp H1 H2. destruct (reachable_inv s Hs) as (Hwf & _).
  destruct (updates_Ok _ _ _ Hwf H1) as [-> Hsc1].
  destruct (updates_Ok _ _ _ Hwf H2) as [-> Hsc2].
  rewrite !calls_state by done. rewrite Hsc1, Hsc2.
  rewrite !add_samples_tp, !add_samples_denom.
  split; apply add_counts_ext; intros j _.
  - by apply total_tp_Permutation.
  - by apply total_denom_Permutation.
Qed.

(** C10: [reset] assigns [_tp] and [_denom] only; the name, the two
    parameters, [sum_metric] and [num_inst] are left as they were, so [get]
    returns after a [reset] exactly what it returned before it; in a state
    reached by an [update] that scored an array pair, that is the value this
    [update] stored. *)
Theorem C10_reset_keeps_metric_value (s : IoUMetric) :
  name (reset s) = name s ∧
  _ignore_label (reset s) = _ignore_label s ∧
  _label_num (reset s) = _label_num s ∧
  sum_metric (reset s) = sum_metric s ∧
  num_inst (reset s) = num_inst s ∧
  get (reset s) = get s ∧
  ∀ s0 labels preds,
    reachable s0 → s = (update labels preds s0).2 → scored (labels, preds) ≠ [] →
    ∃ v, sum_metric s = Some v ∧ get s = Ok ("IoU"%string, Fin v) ∧
         get (reset s) = Ok ("IoU"%string, Fin v).
Proof.
  split_and!; [done..|]. intros s0 labels preds Hs -> Hne.
  destruct (reachable_inv s0 Hs) as (Hwf & Hn & _).
  rewrite update_state by done.
  destruct (add_samples_metric (scored (labels, preds)) s0 Hne) as [Hm Hni].
  destruct (add_samples_frame (scored (labels, preds)) s0) as (Hname & _ & _).
  eexists. split; [exact Hm|].
  assert (get (add_samples (scored (labels, preds)) s0)
          = Ok ("IoU"%string, Fin (mean_iou (_label_num s0)
                  (_tp (add_samples (scored (labels, preds)) s0))
                  (_denom (add_samples (scored (labels, preds)) s0))))) as Hget.
  { unfold get. rewrite Hni, Hm, Hname, Hn. simpl. by rewrite Qdiv_1_r_eq. }
  split; [done|]. exact Hget.
Qed.

(** C7 (amended): [reset] leaves all 19 true-positive counters and all 19
    denominator counters at zero; the stored value is not touched, and a
    [get] that follows with no [update] in between returns what [get]
    returned before the [reset]. *)
Theorem C7_reset_then_get (s : IoUMetric) :
  reachable s →
  _tp (reset s) = replicate 19 0%Q ∧
  _denom (reset s) = replicate 19 0%Q ∧
  sum_metric (reset s) = sum_metric s ∧
  num_inst (reset s) = num_inst s ∧
  get (reset s) = get s.
Proof.
  intros Hs. destruct (reachable_inv s Hs) as (_ & _ & _ & Hl).
  unfold reset. simpl. by rewrite Hl.
Qed.

Lemma sample_pixels_raise l p e :
  sample_pixels l p = Raise e →
  e = ValueError ∨
  e = TypeError ∧ (¬ sized (asnumpy_int32 l) ∨ ¬ sized (argmax_channel_int32 p)).
Proof.
  unfold sample_pixels, check_label_shapes, pixels, broadcast, sized. simpl.
  destruct (shape (asnumpy_int32 l)) as [|a ?]; simpl.
  { intros ?; simplify_eq. right. split. { reflexivity. } left. intros Hn. by apply Hn. }
  destruct (shape (argmax_channel_int32 p)) as [|b ?]; simpl.
  { intros ?; simplify_eq. right. split. { reflexivity. } right. intros Hn. by apply Hn. }
  destruct (decide (a ≠ b)); simpl; [intros ?; simplify_eq; by left|].
  case_decide; [done|].
  repeat case_match; try done; intros ?; simplify_eq; by left.
Qed.

Lemma sample_pixels_len_mismatch l p :
  sized (asnumpy_int32 l) → sized (argmax_channel_int32 p) →
  py_len (asnumpy_int32 l) ≠ py_len (argmax_channel_int32 p) →
  sample_pixels l p = Raise ValueError.
Proof.
  unfold sample_pixels, check_label_shapes, sized. simpl.
  destruct (shape (asnumpy_int32 l)) as [|a ?]; [done|].
  destruct (shape (argmax_channel_int32 p)) as [|b ?]; [done|]. simpl.
  intros _ _ Hab. rewrite decide_True; [done|congruence].
Qed.

(** C2: in every [update] of the notebook's metric (ignore label 255,
    classes 0..18) the assertion [tp <= denom] holds: for every array pair
    and every class the two counts satisfy it, and [update] never raises
    [AssertionError]. *)
Theorem C2_tp_le_denom (s : IoUMetric) (labels preds : list NDArray) :
  reachable s →
  (update labels preds s).1 ≠ Raise AssertionError ∧
  ∀ l p j tp denom,
    (l, p) ∈ zip labels preds → 0 ≤ j < 19 →
    sample_tp (asnumpy_int32 l) (argmax_channel_int32 p) j = Ok tp →
    sample_denom 255 (asnumpy_int32 l) (argmax_channel_int32 p) j = Ok denom →
    tp ≤ denom.
Proof.
  intros Hs. destruct (reachable_inv s Hs) as (Hwf & _ & Hi & _). split.
  - intros Hr. apply update_raise in Hr; [|done].
    destruct Hr as [[_ ?]|(lp & _ & Hr)]; [done|].
    apply sample_pixels_raise in Hr. by destruct Hr as [?|[? _]].
  - intros l p j tp denom _ Hj. rewrite sample_tp_pixels, sample_denom_pixels.
    destruct (pixels _ _) as [pix|e]; simpl; [|done].
    intros ? ?; simplify_eq. apply pix_tp_le_denom. lia.
Qed.

(** C3 (amended): [update] raises [ValueError] whenever the list of labels
    and the list of predictions differ in length, and whenever some label
    array and its arg-max prediction array differ in [len], the size of their
    first dimension (the arrays having at least one dimension). *)
Theorem C3_length_checks (s : IoUMetric) (labels preds : list NDArray) :
  reachable s →
  Forall (λ l, sized (asnumpy_int32 l)) labels →
  Forall (λ p, sized (argmax_channel_int32 p)) preds →
  (length labels ≠ length preds ∨
   ∃ i l p, labels !! i = Some l ∧ preds !! i = Some p ∧
            py_len (asnumpy_int32 l) ≠ py_len (argmax_channel_int32 p)) →
  (update labels preds s).1 = Raise ValueError.
Proof.
  intros Hs Hl Hp Hbad. destruct (reachable_inv s Hs) as (Hwf & _).
  assert (Hsz : ∀ lp, lp ∈ zip labels preds →
                 sized (asnumpy_int32 lp.1) ∧ sized (argmax_channel_int32 lp.2)).
  { intros [l p] Hin. rewrite Forall_forall in Hl, Hp. split.
    - apply Hl. by eapply elem_of_zip_l.
    - apply Hp. by eapply elem_of_zip_r. }
  destruct (update labels preds s).1 as [[]|e] eqn:Hr.
  - exfalso. destruct (update_Ok _ _ _ Hwf Hr) as (Hlen & _ & Hall).
    destruct Hbad as [?|(i & l & p & Hli & Hpi & Hne)]; [done|].
    rewrite Forall_forall in Hall.
    assert (Hin : (l, p) ∈ zip labels preds).
    { apply list_elem_of_lookup. exists i. by apply lookup_zip_with_Some; eauto. }
    destruct (Hall _ Hin) as [pix Hpix]. destruct (Hsz _ Hin).
    by rewrite sample_pixels_len_mismatch in Hpix.
  - apply update_raise in Hr; [|done]. destruct Hr as [[_ ->]|(lp & Hin & Hr)]; [done|].
    apply sample_pixels_raise in Hr. destruct (Hsz _ Hin).
    destruct Hr as [->|[_ [?|?]]]; done.
Qed.

(** C5: when an array pair is scored, the denominator accumulated for a
    class [j] grows by the number of pixels that are predicted [j] or
    labelled [j] and whose label is not 255: pixels labelled 255 and
    predicted [j] are subtracted and add nothing. *)
Theorem C5_ignored_pixels_excluded (s s' : IoUMetric) (l p : NDArray) (j : nat) :
  reachable s →
  update_sample l p s = (Ok tt, s') →
  (j < 19)%nat →
  ∃ pix,
    pixels (asnumpy_int32 l) (argmax_channel_int32 p) = Ok pix ∧
    sample_denom 255 (asnumpy_int32 l) (argmax_channel_int32 p) (Z.of_nat j)
    = Ok (count (λ '(pr, lb), ((pr =? Z.of_nat j) || (lb =? Z.of_nat j))
                              && negb (lb =? 255)) pix) ∧
    _denom s' !! j
    = (λ x, x + inject_Z (count (λ '(pr, lb), ((pr =? Z.of_nat j) || (lb =? Z.of_nat j))
                                              && negb (lb =? 255)) pix))%Q
      <$> _denom s !! j.
Proof.
  intros Hs Hr Hj. destruct (reachable_inv s Hs) as (Hwf & _ & Hi & _).
  rewrite update_sample_spec in Hr by done.
  destruct (sample_pixels l p) as [pix|e] eqn:Hpix; [|done]. simplify_eq.
  assert (pixels (asnumpy_int32 l) (argmax_channel_int32 p) = Ok pix) as Hok.
  { unfold sample_pixels in Hpix. by destruct (check_label_shapes _ _ 0) as [[]|?]. }
  exists pix. split; [done|].
  rewrite sample_denom_pixels, Hok. simpl.
  rewrite <- pix_denom_not_ignored by lia. split; [done|].
  unfold add_counts. by rewrite list_lookup_imap, Hi.
Qed.

End Claims.

(** ** The claims on concrete runs *)

(** C1 as stated fails on [update([px0],[px0]); reset(); update([],[])]: the
    last call returns without storing a value, so [get] still returns the
    value of the first call, while the counters since the reset are zero. *)
Lemma C1_counterexample :
  let bs : list (@batch ndarray) := [([], [])] in
  ∃ s v,
    updates bs (reset met1) = (Ok tt, s) ∧
    get s = Ok ("IoU"%string, Fin v) ∧
    reachable met1 ∧ bs ≠ [] ∧
    _tp s = replicate 19 0%Q ∧ _denom s = replicate 19 0%Q ∧
    (v == 1000000 # 19000019)%Q ∧
    (mean_iou 19 (running_tp 19 (samples_of bs))
                 (running_denom 255 19 (samples_of bs)) == 0)%Q ∧
    ¬ (v == mean_iou 19 (running_tp 19 (samples_of bs))
                        (running_denom 255 19 (samples_of bs)))%Q.
Proof.
  eexists _, _. split_and!.
  - vm_compute. reflexivity.
  - vm_compute. reflexivity.
  - apply (reach_update met [px0] [px0]), reach_met.
  - done.
  - vm_compute. reflexivity.
  - vm_compute. reflexivity.
  - vm_compute. reflexivity.
  - vm_compute. reflexivity.
  - vm_compute. discriminate.
Qed.

Lemma C1_witness :
  let bs : list (@batch ndarray) :=
    [([px0], [px0]); ([lab01], [pred11]); ([lab01; px0], [pred11; pred11])] in
  let s := calls bs (reset met) in
  let running_tp := running_tp 19 (scored_pairs bs) in
  let running_denom := running_denom 255 19 (scored_pairs bs) in
  _tp s = running_tp ∧
  _denom s = running_denom ∧
  sum_metric s = Some (mean_iou 19 running_tp running_denom) ∧
  num_inst s = Some 1 ∧
  get s = Ok ("IoU"%string, Fin (mean_iou 19 running_tp running_denom)) ∧
  ((updates bs (reset met)).1 = Ok tt →
   (updates bs (reset met)).2 = s ∧ scored_pairs bs = samples_of bs).
Proof.
  intros bs.
  apply (C1_get_is_cumulative_mean met bs).
  - apply reach_met.
  - vm_compute. discriminate.
Defined.

Lemma C2_witness :
  reachable met ∧
  (update [lab01] [pred11] met).1 ≠ Raise AssertionError ∧
  ∀ l p j tp denom,
    (l, p) ∈ zip [lab01] [pred11] → 0 ≤ j < 19 →
    sample_tp l p j = Ok tp →
    sample_denom 255 l p j = Ok denom →
    tp ≤ denom.
Proof.
  split; [apply reach_met|].
  exact (C2_tp_le_denom met [lab01] [pred11] reach_met).
Defined.

(** C3 as stated fails on a 1x1 label array and a 1x5 prediction array:
    their shapes differ, both have [len] 1, and [update] returns. *)
Lemma C3_counterexample :
  shape lab1x1 ≠ shape pred1x5 ∧
  (update [lab1x1] [pred1x5] met).1 = Ok tt.
Proof. split; [discriminate|]. vm_compute. reflexivity. Qed.

Lemma C3_witness :
  (update [lab01; px0] [pred11; pred11] met).1 = Raise ValueError.
Proof.
  apply (C3_length_checks met [lab01; px0] [pred11; pred11]).
  - apply reach_met.
  - repeat constructor; discriminate.
  - repeat constructor; discriminate.
  - right. exists 1%nat, px0, pred11. repeat split. simpl. discriminate.
Defined.

(** C4 as stated fails on one pixel labelled and predicted 0: class 0
    contributes 1/(1 + 1e-6), the other 18 classes contribute 0.  It also
    fails when an earlier batch was mispredicted (the counters are
    cumulative: class 0 contributes 1/(2 + 1e-6)), and on an empty batch,
    which stores no value at all. *)
Lemma C4_counterexample :
  (∃ s v,
    update [px0] [px0] met = (Ok tt, s) ∧
    exact_match 255 px0 px0 ∧
    get s = Ok ("IoU"%string, Fin v) ∧
    (v == 1000000 # 19000019)%Q ∧ ¬ (v == 1)%Q ∧
    (iou_term (_tp s) (_denom s) 0 == 1000000 # 1000001)%Q ∧
    (iou_term (_tp s) (_denom s) 1 == 0)%Q) ∧
  (∃ s v,
    update [px0] [px0] (update [lab01] [pred11] met).2 = (Ok tt, s) ∧
    get s = Ok ("IoU"%string, Fin v) ∧
    (v == 2000000 # 38000019)%Q ∧
    (iou_term (_tp s) (_denom s) 0 == 1000000 # 2000001)%Q) ∧
  update [] [] met = (Ok tt, met) ∧ get met = Raise AttributeError.
Proof.
  split_and!.
  - eexists _, _. split_and!.
    + vm_compute. reflexivity.
    + repeat constructor.
    + vm_compute. reflexivity.
    + vm_compute. reflexivity.
    + vm_compute. discriminate.
    + vm_compute. reflexivity.
    + vm_compute. reflexivity.
  - eexists _, _. split_and!.
    + vm_compute. reflexivity.
    + vm_compute. reflexivity.
    + vm_compute. reflexivity.
    + vm_compute. reflexivity.
  - vm_compute. reflexivity.
  - vm_compute. reflexivity.
Qed.

(** C5 on a pair with an ignored pixel: of the three pixels predicted 1,
    the one labelled 255 is subtracted, and the denominator of class 1 grows
    by 2, not by 3. *)
Lemma C5_witness :
  let s' := (update_sample lab255 pred111 met).2 in
  (∃ pix,
    pixels lab255 pred111 = Ok pix ∧
    sample_denom 255 lab255 pred111 1
    = Ok (count (λ '(pr, lb), ((pr =? 1) || (lb =? 1)) && negb (lb =? 255)) pix) ∧
    _denom s' !! 1%nat
    = (λ x, x + inject_Z (count (λ '(pr, lb), ((pr =? 1) || (lb =? 1))
                                              && negb (lb =? 255)) pix))%Q
      <$> _denom met !! 1%nat) ∧
  pixels lab255 pred111 = Ok [(1, 255); (1, 1); (1, 0)] ∧
  count (λ '(pr, lb), (pr =? 1) || (lb =? 1)) [(1, 255); (1, 1); (1, 0)] = 3 ∧
  count (λ '(pr, lb), (pr =? 1) && (lb =? 255)) [(1, 255); (1, 1); (1, 0)] = 1 ∧
  sample_denom 255 lab255 pred111 1 = Ok 2 ∧
  _denom met !! 1%nat = Some (inject_Z 0) ∧
  _denom s' !! 1%nat = Some (inject_Z 0 + inject_Z 2)%Q.
Proof.
  intros s'. split.
  - refine (C5_ignored_pixels_excluded met s' lab255 pred111 1%nat reach_met _ _).
    + vm_compute. reflexivity.
    + lia.
  - split_and!; vm_compute; reflexivity.
Defined.

Lemma C10_witness :
  ∃ v, sum_metric met1 = Some v ∧ get met1 = Ok ("IoU"%string, Fin v) ∧
       get (reset met1) = Ok ("IoU"%string, Fin v).
Proof.
  apply (C10_reset_keeps_metric_value met1) with (s0 := met)
    (labels := [px0]) (preds := [px0]).
  - apply reach_met.
  - reflexivity.
  - vm_compute. discriminate.
Defined.

Lemma C7_witness :
  reachable met1 ∧
  _tp (reset met1) = replicate 19 0%Q ∧
  _denom (reset met1) = replicate 19 0%Q ∧
  sum_metric (reset met1) = sum_metric met1 ∧
  num_inst (reset met1) = num_inst met1 ∧
  get (reset met1) = get met1.
Proof.
  assert (reachable met1) as Hr.
  { apply (reach_update met [px0] [px0]), reach_met. }
  split; [exact Hr|].
  apply (C7_reset_then_get met1 Hr).
Defined.

(** C7 as stated fails on [update([px0],[px0]); reset(); get()]: the
    counters are zero and [get] returns the value of the [update]. *)
Lemma C7_counterexample :
  ∃ v w,
    sum_metric (reset met1) = Some v ∧
    get (reset met1) = Ok ("IoU"%string, Fin w) ∧
    reachable met1 ∧
    _tp (reset met1) = replicate 19 0%Q ∧
    _denom (reset met1) = replicate 19 0%Q ∧
    num_inst (reset met1) = Some 1 ∧
    (v == 1000000 # 19000019)%Q ∧
    (w == 1000000 # 19000019)%Q ∧ (eps < w)%Q ∧ ¬ (w == 0)%Q.
Proof.
  eexists _, _. split_and!.
  - vm_compute. reflexivity.
  - vm_compute. reflexivity.
  - apply (reach_update met [px0] [px0]), reach_met.
  - vm_compute. reflexivity.
  - vm_compute. reflexivity.
  - vm_compute. reflexivity.
  - vm_compute. reflexivity.
  - vm_compute. reflexivity.
  - vm_compute. reflexivity.
  - vm_compute. discriminate.
Qed.

Lemma C8_witness :
  let bs1 : list (@batch ndarray) := [([px0], [px0]); ([lab01], [pred11])] in
  let bs2 : list (@batch ndarray) := [([lab01; px0], [pred11; px0])] in
  let s1 := (updates bs1 met).2 in
  let s2 := (updates bs2 met).2 in
  _tp s1 = _tp s2 ∧ _denom s1 = _denom s2.
Proof.
  intros bs1 bs2 s1 s2.
  apply (C8_totals_order_independent met s1 s2 bs1 bs2).
  - apply reach_met.
  - apply perm_swap.
  - vm_compute. reflexivity.
  - vm_compute. reflexivity.
Defined.

(** ** The sample-list builder: properties *)

Lemma append_crops_app index p l v : append_crops index p l v = v ++ crops index p l.
Proof.
  unfold append_crops, crops. change (seqZ 1 7) with [1; 2; 3; 4; 5; 6; 7].
  simpl. by rewrite <- !app_assoc.
Qed.

Lemma scan_images_spec fs d l ps : ∀ index v,
  scan_images fs d l ps index v =
  let m := filter (λ p, os_path_isfile fs (label_path d l p) = true) ps in
  (index + Z.of_nat (length m),
   v ++ concat (imap (λ i p, crops (index + Z.of_nat i + 1) p (label_path d l p)) m)).
Proof.
  induction ps as [|p ps IH]; intros index v; cbn [scan_images].
  - cbn. rewrite app_nil_r. f_equal. lia.
  - destruct (os_path_isfile fs (label_path d l p)) eqn:Hf.
    + rewrite filter_cons_True by done. rewrite IH, append_crops_app. cbv zeta.
      rewrite imap_cons. cbn [concat length]. rewrite <- app_assoc. f_equal; [lia|].
      f_equal. f_equal; [by replace (index + Z.of_nat 0 + 1) with (index + 1) by lia|]. f_equal.
      apply imap_ext. intros i q _. cbn [compose].
      by replace (index + 1 + Z.of_nat i + 1) with (index + Z.of_nat (S i) + 1) by lia.
    + rewrite filter_cons_False by (by rewrite Hf). by rewrite IH.
Qed.

Lemma val_lst_spec fs d l :
  val_lst fs d l =
  concat (imap (λ i p, crops (Z.of_nat i + 1) p (label_path d l p)) (matched_images fs d l)).
Proof. unfold val_lst. by rewrite scan_images_spec. Qed.

Lemma all_images_sorted fs d :
  StronglySorted String.le (all_images fs d) ∧
  all_images fs d ≡ₚ glob_glob fs (os_path_join d "*/*.png").
Proof.
  split; [apply (StronglySorted_merge_sort String.le)|apply (merge_sort_Permutation String.le)].
Qed.

Lemma string_app_assoc (a b c : string) : (a +:+ b) +:+ c = a +:+ (b +:+ c).
Proof.
  induction a as [|x a IH]; [done|].
  change (String x ((a +:+ b) +:+ c) = String x (a +:+ b +:+ c)). by rewrite IH.
Qed.

Lemma string_app_nil_r (a : string) : a +:+ "" = a.
Proof.
  induction a as [|x a IH]; [done|].
  change (String x (a +:+ "") = String x a). by rewrite IH.
Qed.

Lemma val_out_foldl (lines : list (list string)) : ∀ out,
  foldl (λ out line, out +:+ print_line line) out lines
  = out +:+ String.concat "" (print_line <$> lines).
Proof.
  induction lines as [|r lines IH]; intros out.
  - cbn. by rewrite string_app_nil_r.
  - cbn [foldl]. rewrite IH, string_app_assoc. f_equal.
    rewrite fmap_cons. destruct lines as [|r' lines]; [by rewrite string_app_nil_r|done].
Qed.

Lemma length_concat_imap_crops (f : nat → Z) (g : string → string) (m : list string) :
  length (concat (imap (λ i p, crops (f i) p (g p)) m)) = (7 * length m)%nat.
Proof.
  revert f. induction m as [|p m IH]; intros f; [done|].
  rewrite imap_cons. cbn [concat]. rewrite length_app.
  change ((λ i p, crops (f i) p (g p)) ∘ S) with (λ i p, crops ((f ∘ S) i) p (g p)).
  rewrite IH. cbn. lia.
Qed.

Lemma records_of_concat_imap_crops (q : string) (f : nat → Z) (g : string → string)
    (m : list string) :
  length (records_of q (concat (imap (λ i p, crops (f i) p (g p)) m)))
  = (7 * length (filter (λ p, p = q) m))%nat.
Proof.
  revert f. induction m as [|p m IH]; intros f; [done|].
  rewrite imap_cons. cbn [concat]. unfold records_of in *. rewrite filter_app, length_app.
  change ((λ i p, crops (f i) p (g p)) ∘ S) with (λ i p, crops ((f ∘ S) i) p (g p)).
  rewrite IH. destruct (decide (p = q)) as [->|Hne].
  - rewrite (filter_cons_True (λ p, p = q)) by done. cbn [length].
    unfold crops. cbn [fmap list_fmap]. rewrite !filter_cons_True by done. 
    cbn. lia.
  - rewrite (filter_cons_False (λ p, p = q)) by done.
    unfold crops. cbn [fmap list_fmap].
    rewrite !filter_cons_False by (cbn; congruence). cbn. lia.
Qed.

Lemma filter_eq_filter {A} `{EqDecision A} (Q : A → Prop) `{∀ x, Decision (Q x)}
    (p : A) (xs : list A) :
  filter (λ x, x = p) (filter Q xs)
  = if decide (Q p) then filter (λ x, x = p) xs else [].
Proof.
  induction xs as [|x xs IH]; [by destruct (decide (Q p))|].
  destruct (decide (x = p)) as [->|Hne].
  - destruct (decide (Q p)) as [Hq|Hq].
    + rewrite (filter_cons_True Q) by done. rewrite !(filter_cons_True (λ x, x = p)) by done.
      by rewrite IH.
    + by rewrite (filter_cons_False Q) by done.
  - rewrite (filter_cons_False (λ x, x = p) x xs) by done.
    destruct (decide (Q x)).
    + rewrite (filter_cons_True Q) by done.
      by rewrite (filter_cons_False (λ x, x = p)) by done.
    + by rewrite (filter_cons_False Q) by done.
Qed.

(** C6: the manifest holds 7 records per matched pair and nothing else: the
    matched images are exactly the globbed images whose derived label path is
    a file, the number of records is 7 times their number, and an image path
    has 7 records for each time [glob] lists it when its label file exists,
    and none when it does not. *)
Theorem C6_seven_records_per_matched_pair (fs : FileSystem) (data_dir label_dir : string) :
  let globbed := glob_glob fs (os_path_join data_dir "*/*.png") in
  let has_label p := os_path_isfile fs (label_path data_dir label_dir p) in
  (∀ p, p ∈ matched_images fs data_dir label_dir ↔ p ∈ globbed ∧ has_label p = true) ∧
  length (val_lst fs data_dir label_dir)
  = (length (matched_images fs data_dir label_dir) * 7)%nat ∧
  ∀ p, length (records_of p (val_lst fs data_dir label_dir))
       = if has_label p then (length (filter (λ q, q = p) globbed) * 7)%nat else 0%nat.
Proof.
  intros globbed has_label.
  destruct (all_images_sorted fs data_dir) as [_ Hperm]. fold globbed in Hperm.
  split_and!.
  - intros p. unfold matched_images. rewrite list_elem_of_filter, Hperm. tauto.
  - rewrite val_lst_spec, length_concat_imap_crops. lia.
  - intros p. rewrite val_lst_spec, records_of_concat_imap_crops.
    unfold matched_images. rewrite filter_eq_filter. unfold has_label.
    destruct (os_path_isfile fs (label_path data_dir label_dir p)) eqn:Hf.
    + rewrite decide_True by done. rewrite Hperm. lia.
    + rewrite decide_False by done. done.
Qed.

(** C9: the images the builder goes through are the paths [glob] found, in
    sorted order, and the matched ones are those whose derived label path
    is a file.  The matched pair number [i] (counting from 1, in sorted
    image-path order) yields the 7 records [str(i), image, label, "512",
    str(256*k)], k = 1..7, in that order, so the crop heights are 256, 512,
    ..., 1792; the file holds one line per record, its five fields joined by
    tabs. *)
Theorem C9_records_of_each_pair (fs : FileSystem) (data_dir label_dir : string) :
  all_images fs data_dir ≡ₚ glob_glob fs (os_path_join data_dir "*/*.png") ∧
  StronglySorted String.le (all_images fs data_dir) ∧
  matched_images fs data_dir label_dir
  = filter (λ p, os_path_isfile fs (label_path data_dir label_dir p) = true)
           (all_images fs data_dir) ∧
  val_lst fs data_dir label_dir
  = concat (imap (λ i p, (λ k, [str (Z.of_nat i + 1); p; label_path data_dir label_dir p;
                                "512"%string; str (256 * k)]) <$> [1; 2; 3; 4; 5; 6; 7])
                 (matched_images fs data_dir label_dir)) ∧
  (λ k, str (256 * k)) <$> [1; 2; 3; 4; 5; 6; 7]
  = ["256"; "512"; "768"; "1024"; "1280"; "1536"; "1792"]%string ∧
  val_out fs data_dir label_dir
  = String.concat "" (print_line <$> val_lst fs data_dir label_dir) ∧
  ∀ i p l w h, print_line [i; p; l; w; h]
               = i +:+ tab +:+ p +:+ tab +:+ l +:+ tab +:+ w +:+ tab +:+ h +:+ newline.
Proof.
  split_and!.
  - apply all_images_sorted.
  - apply all_images_sorted.
  - reflexivity.
  - apply val_lst_spec.
  - reflexivity.
  - unfold val_out. by rewrite val_out_foldl.
  - intros i p l w h. unfold print_line. cbn [String.concat].
    by rewrite !string_app_assoc.
Qed.

(** * Further properties of the code *)

Lemma for_app {A} (xs ys : list A) (body : A → M unit) s :
  for_ (xs ++ ys) body s = (for_ xs body ≫= λ _, for_ ys body) s.
Proof.
  revert s. induction xs as [|x xs IH]; intros s; [done|].
  cbn [app for_]. rewrite !bind_unfold.
  destruct (body x s) as [[[]|e] s']; [|done]. by rewrite IH, bind_unfold.
Qed.

Lemma broadcast_Ok_iff {A B} (a : list A) (b : list B) :
  (∃ pix, broadcast a b = Ok pix) ↔
  length a = length b ∨ length a = 1%nat ∨ length b = 1%nat.
Proof.
  unfold broadcast. case_decide as Hl.
  - split; [by left|by eexists].
  - destruct a as [|x [|x' a]], b as [|y [|y' b]]; simpl in *;
      (split; [intros [pix Hp]; try done; lia
              | intros Hc; first [exfalso; lia | by eexists]]).
Qed.

Lemma add_counts_inject (f : nat → Z) (T : list Z) :
  add_counts f (inject_Z <$> T) = inject_Z <$> imap (λ j t, t + f j) T.
Proof.
  apply list_eq; intros i. unfold add_counts.
  rewrite list_lookup_fmap, !list_lookup_imap, list_lookup_fmap.
  destruct (T !! i); simpl; [|done]. by rewrite inject_Z_plus.
Qed.

Lemma pix_denom_nonneg ign j pix : j ≠ ign → 0 ≤ pix_denom ign j pix.
Proof.
  intros Hj. pose proof (pix_tp_le_denom ign j pix Hj). pose proof (pix_tp_nonneg j pix). lia.
Qed.

Lemma counts_ok_add (n : nat) (ign : Z) pix tp denom :
  ¬ (0 ≤ ign < Z.of_nat n) →
  counts_ok n tp denom →
  counts_ok n (add_counts (λ j, pix_tp (Z.of_nat j) pix) tp)
              (add_counts (λ j, pix_denom ign (Z.of_nat j) pix) denom).
Proof.
  intros Hign (T & D & -> & -> & HT & HD & Hle).
  exists (imap (λ j t, t + pix_tp (Z.of_nat j) pix) T),
         (imap (λ j d, d + pix_denom ign (Z.of_nat j) pix) D).
  rewrite !add_counts_inject, !length_imap. split_and!; try done.
  apply Forall2_same_length_lookup_2; [by rewrite !length_imap, HT, HD|].
  intros i t d. rewrite !list_lookup_imap.
  destruct (T !! i) as [t0|] eqn:Ht; [|done].
  destruct (D !! i) as [d0|] eqn:Hd; [|done]. simpl. intros ? ?; simplify_eq.
  pose proof (Forall2_lookup_lr _ _ _ _ _ _ Hle Ht Hd) as Hb. simpl in Hb.
  apply lookup_lt_Some in Ht.
  assert (Z.of_nat i ≠ ign) as Hne by lia.
  pose proof (pix_tp_le_denom ign (Z.of_nat i) pix Hne).
  pose proof (pix_tp_nonneg (Z.of_nat i) pix). lia.
Qed.

(** A class whose counters are integer counts [0 <= t <= d] has a term in
    [0, 1). *)
Lemma term_bounds (t d : Z) :
  0 ≤ t ≤ d → (0 <= inject_Z t / (inject_Z d + eps) < 1)%Q.
Proof.
  intros [Ht Htd]. rewrite Zle_Qle in Ht, Htd. change (inject_Z 0) with 0%Q in Ht.
  assert (0 < inject_Z d + eps)%Q as Hpos by (unfold eps; lra).
  split.
  - apply Qle_shift_div_l; [done|]. lra.
  - apply Qlt_shift_div_r; [done|]. unfold eps. lra.
Qed.

Lemma counts_ok_mean (n : nat) tp denom :
  (0 < n)%nat → counts_ok n tp denom →
  (0 <= mean_iou (Z.of_nat n) tp denom < 1)%Q.
Proof.
  intros Hn (T & D & -> & -> & HT & HD & Hle). unfold mean_iou.
  rewrite Nat2Z.id.
  destruct (iou_sum_bounds (inject_Z <$> T) (inject_Z <$> D) (seq 0 n) 0%Q) as [Hlo Hhi].
  { apply Forall_forall. intros j [_ Hj]%elem_of_seq. simpl in Hj.
    destruct (lookup_lt_is_Some_2 T j) as [t Ht]; [lia|].
    destruct (lookup_lt_is_Some_2 D j) as [d Hd]; [lia|].
    unfold iou_term.
    rewrite (list_lookup_total_correct (inject_Z <$> T) j (inject_Z t))
      by (by rewrite list_lookup_fmap, Ht).
    rewrite (list_lookup_total_correct (inject_Z <$> D) j (inject_Z d))
      by (by rewrite list_lookup_fmap, Hd).
    apply term_bounds. apply (Forall2_lookup_lr _ _ _ _ _ _ Hle Ht Hd). }
  destruct Hhi as [Hnil|Hhi]; [destruct n; [lia|done]|].
  rewrite length_seq in Hhi.
  assert (0 < inject_Z (Z.of_nat n))%Q as Hpos.
  { change 0%Q with (inject_Z 0). rewrite <- Zlt_Qlt. lia. }
  split.
  - apply Qle_shift_div_l; [done|]. lra.
  - apply Qlt_shift_div_r; [done|]. lra.
Qed.

(** X1: With a non-zero [shape] argument [check_label_shapes] compares the full
    shapes of two arrays: it returns exactly when they are equal.  Arrays
    that pass it, have a dimension and hold as many elements as their shape
    says, also pass the default length check and give masks of one size, so
    that numpy has nothing to broadcast. *)
Theorem check_full_shapes (a b : ndarray) (flag : Z) :
  flag ≠ 0 →
  (check_label_shapes a b flag = Ok tt ↔ shape a = shape b) ∧
  (check_label_shapes a b flag = Ok tt ∨ check_label_shapes a b flag = Raise ValueError) ∧
  (check_label_shapes a b flag = Ok tt → sized a → well_shaped a → well_shaped b →
   check_label_shapes a b 0 = Ok tt ∧ pixels a b = Ok (zip (flat b) (flat a))).
Proof.
  intros Hflag. unfold check_label_shapes.
  destruct (Z.eqb_spec flag 0) as [?|_]; [done|]. simpl.
  destruct (decide (shape a ≠ shape b)) as [Hne|Heq].
  - split_and!; [split; [done|by intros ?]|by right|done].
  - apply dec_stable in Heq. split_and!; [done|by left|].
    intros _ Hsz Ha Hb. unfold sized in Hsz.
    assert (length (flat b) = length (flat a)) as Hlen.
    { unfold well_shaped in *. by rewrite Ha, Hb, Heq. }
    rewrite <- Heq. destruct (shape a) as [|n ?]; [done|]. simpl.
    rewrite decide_False by (intros Hn; by apply Hn).
    split; [done|]. unfold pixels, broadcast. by rewrite decide_True.
Qed.

Lemma pix_denom_self j pix :
  pix_denom j j pix = count (λ '(p, l), xorb (p =? j) (l =? j)) pix.
Proof.
  unfold pix_denom. induction pix as [|[p l] pix IH]; [done|].
  rewrite !count_cons. destruct (p =? j), (l =? j); simpl; lia.
Qed.

Lemma class_loop_assert label pred_label pix (j m : nat) : ∀ (k : nat) iou s,
  pixels label pred_label = Ok pix →
  _ignore_label s = Z.of_nat j →
  (k ≤ j < k + m)%nat →
  (k + m ≤ length (_tp s))%nat → (k + m ≤ length (_denom s))%nat →
  pix_denom (Z.of_nat j) (Z.of_nat j) pix < pix_tp (Z.of_nat j) pix →
  (class_loop label pred_label (seq k m) iou s).1 = Raise AssertionError.
Proof.
  induction m as [|m IH]; intros k iou s Hpix Hi Hj Htp Hden Hlt; [lia|].
  cbn [seq class_loop]. rewrite bind_unfold.
  destruct (decide (k = j)) as [->|Hne].
  - unfold update_class, mbind, M_bind, lift, gets, getitem, modify.
    rewrite sample_tp_pixels, sample_denom_pixels, Hpix, Hi. simpl.
    destruct (Z.leb_spec (pix_tp (Z.of_nat j) pix) (pix_denom (Z.of_nat j) (Z.of_nat j) pix));
      [lia|done].
  - destruct (lookup_lt_is_Some_2 (_tp s) k) as [x Hx]; [lia|].
    destruct (lookup_lt_is_Some_2 (_denom s) k) as [y Hy]; [lia|].
    rewrite (update_class_ok _ _ pix _ _ _ x y) by (try done; rewrite Hi; lia).
    cbv zeta. apply IH; simpl; rewrite ?length_insert; try done; lia.
Qed.

Section MetricExtras.
Context {NDArray : Type} {ops : NDArrayOps NDArray}.

(** X2: Splitting a batch: one [update] on two concatenated batches does what
    two [update] calls in a row do, outcome and object alike, whatever the
    object. *)
Theorem update_app (l1 l2 p1 p2 : list NDArray) (s : IoUMetric) :
  length l1 = length p1 → length l2 = length p2 →
  update (l1 ++ l2) (p1 ++ p2) s = (update l1 p1 ≫= λ _, update l2 p2) s.
Proof.
  intros H1 H2. rewrite update_zip by (rewrite !length_app; lia).
  rewrite zip_with_app by done. rewrite for_app, !bind_unfold.
  rewrite <- update_zip by done.
  destruct (update l1 p1 s) as [[[]|e] s']; [|done]. by rewrite update_zip.
Qed.

Lemma sample_pixels_Ok_iff l p :
  (∃ pix, sample_pixels l p = Ok pix) ↔
  (∃ n, py_len (asnumpy_int32 l) = Ok n ∧ py_len (argmax_channel_int32 p) = Ok n) ∧
  broadcastable (asnumpy_int32 l) (argmax_channel_int32 p).
Proof.
  unfold sample_pixels, check_label_shapes, pixels, broadcastable. simpl.
  rewrite <- (broadcast_Ok_iff (flat (asnumpy_int32 l))).
  destruct (shape (asnumpy_int32 l)) as [|a ?]; simpl.
  { split; [by intros [? ?]|by intros [(? & ? & ?) _]]. }
  destruct (shape (argmax_channel_int32 p)) as [|b ?]; simpl.
  { split; [by intros [? ?]|by intros [(? & ? & ?) _]]. }
  destruct (decide (a ≠ b)) as [Hab|Hab]; simpl.
  - split; [by intros [? ?]|]. intros [(n & ? & ?) _]. simplify_eq.
  - apply dec_stable in Hab as ->.
    rewrite (broadcast_Ok_iff (flat (argmax_channel_int32 p))).
    rewrite (broadcast_Ok_iff (flat (asnumpy_int32 l))).
    split.
    + intros Hb. split; [by exists b|]. lia.
    + intros [_ Hb]. lia.
Qed.

Lemma score_Ok_iff (samples : list (NDArray * NDArray)) :
  (score samples).1 = Ok tt ↔
  Forall (λ lp, ∃ pix, sample_pixels lp.1 lp.2 = Ok pix) samples.
Proof.
  split; [by intros [_ ?]%score_Ok|].
  induction 1 as [|[l p] samples [pix Hpix] _ IH]; [done|].
  cbn [score]. simpl in *. by rewrite Hpix.
Qed.

(** X3: [update] returns exactly when the two lists have the same length and
    every label array and its arg-max prediction array have the same [len]
    and flattened sizes that are equal or 1. *)
Theorem update_returns_iff (s : IoUMetric) (labels preds : list NDArray) :
  reachable s →
  (update labels preds s).1 = Ok tt ↔
  length labels = length preds ∧
  Forall (λ lp,
            (∃ n, py_len (asnumpy_int32 lp.1) = Ok n ∧
                  py_len (argmax_channel_int32 lp.2) = Ok n) ∧
            broadcastable (asnumpy_int32 lp.1) (argmax_channel_int32 lp.2))
         (zip labels preds).
Proof.
  intros Hs. destruct (reachable_inv s Hs) as (Hwf & _).
  rewrite update_score by done. case_decide as Hlen; simpl.
  - rewrite score_Ok_iff. split.
    + intros Hall. split; [done|]. eapply Forall_impl; [exact Hall|].
      intros lp. by rewrite sample_pixels_Ok_iff.
    + intros [_ Hall]. eapply Forall_impl; [exact Hall|].
      intros lp. by rewrite sample_pixels_Ok_iff.
  - split; [done|]. by intros [? _].
Qed.

(** X4: [update] is not atomic: when the pair at some position cannot be scored,
    the pairs before it stay scored.  [update] raises the error of that pair
    and leaves the object that an [update] with the pairs before it alone
    would have left. *)
Theorem update_failure_keeps_prefix (s s1 : IoUMetric) (l1 l2 p1 p2 : list NDArray)
    (l p : NDArray) (e : exn) :
  reachable s →
  length l1 = length p1 → length l2 = length p2 →
  update l1 p1 s = (Ok tt, s1) →
  sample_pixels l p = Raise e →
  update (l1 ++ l :: l2) (p1 ++ p :: p2) s = (Raise e, s1) ∧
  (e = ValueError ∨ e = TypeError).
Proof.
  intros Hs H1 H2 Hu He. destruct (reachable_inv s Hs) as (Hwf & _).
  split; [|apply sample_pixels_raise in He; tauto].
  rewrite update_zip by (rewrite !length_app; simpl; lia).
  rewrite zip_with_app by done. rewrite for_app, bind_unfold.
  rewrite <- update_zip by done. rewrite Hu.
  rewrite <- (update_zip (l :: l2) (p :: p2)) by (simpl; lia).
  assert (wf s1) as Hwf1.
  { pose proof (update_state l1 p1 s Hwf) as Hst. rewrite Hu in Hst. simpl in Hst.
    rewrite Hst. by apply wf_add_samples. }
  rewrite update_score by done. simpl. rewrite decide_True by lia.
  simpl. by rewrite He.
Qed.

Lemma counts_ok_add_samples (sc : list (NDArray * NDArray)) : ∀ s,
  _ignore_label s = 255 → _label_num s = 19 →
  counts_ok 19 (_tp s) (_denom s) →
  counts_ok 19 (_tp (add_samples sc s)) (_denom (add_samples sc s)).
Proof.
  induction sc as [|lp sc IH]; intros s Hi Hl Hc; [done|].
  unfold add_samples in *. cbn [foldl]. apply IH; [done..|].
  unfold add_sample. simpl. rewrite Hi. apply counts_ok_add; [lia|done].
Qed.

Lemma reachable_counts_ok s : reachable s → counts_ok 19 (_tp s) (_denom s).
Proof.
  assert (counts_ok 19 (replicate 19 0%Q) (replicate 19 0%Q)) as Hz.
  { exists (replicate 19 0), (replicate 19 0). split_and!; try done.
    apply Forall2_same_length_lookup_2; [done|].
    intros i t d [-> _]%lookup_replicate [-> _]%lookup_replicate. lia. }
  induction 1 as [|s Hs _|s labels preds Hs IH].
  - exact Hz.
  - destruct (reachable_inv s Hs) as (_ & _ & _ & Hl).
    unfold reset. simpl. by rewrite Hl.
  - destruct (reachable_inv s Hs) as (Hwf & _ & Hi & Hl).
    rewrite update_state by done. by apply counts_ok_add_samples.
Qed.

(** X5: In every object the notebook's metric can become, each class has one
    true-positive counter and one denominator counter; both hold integer
    pixel counts, and [0 <= _tp[j] <= _denom[j]]. *)
Theorem reachable_counters (s : IoUMetric) (j : nat) :
  reachable s → (j < 19)%nat →
  length (_tp s) = 19%nat ∧ length (_denom s) = 19%nat ∧
  ∃ t d : Z, _tp s !! j = Some (inject_Z t) ∧ _denom s !! j = Some (inject_Z d) ∧
             0 ≤ t ≤ d.
Proof.
  intros Hs Hj. destruct (reachable_counts_ok s Hs) as (T & D & -> & -> & HT & HD & Hle).
  rewrite !length_fmap. split_and!; [done..|].
  destruct (lookup_lt_is_Some_2 T j) as [t Ht]; [lia|].
  destruct (lookup_lt_is_Some_2 D j) as [d Hd]; [lia|].
  exists t, d. rewrite !list_lookup_fmap, Ht, Hd.
  pose proof (Forall2_lookup_lr _ _ _ _ _ _ Hle Ht Hd) as Hb. simpl in Hb.
  split_and!; [done..| |]; lia.
Qed.

Lemma run_snoc (cs : list call) (c : call) : run (cs ++ [c]) = do_call c (run cs).
Proof. unfold run. by rewrite foldl_app. Qed.

Lemma run_reachable (cs : list call) : reachable (run cs).
Proof.
  induction cs as [|c cs IH] using rev_ind; [apply reach_met|].
  rewrite run_snoc. destruct c; simpl; by constructor.
Qed.

Lemma do_call_metric (c : call) (s : IoUMetric) :
  reachable s →
  match scored_by c with
  | [] => sum_metric (do_call c s) = sum_metric s ∧ num_inst (do_call c s) = num_inst s
  | _ :: _ => ∃ v, sum_metric (do_call c s) = Some v ∧ num_inst (do_call c s) = Some 1 ∧
                   (0 <= v <= 1)%Q
  end.
Proof.
  intros Hs. destruct (reachable_inv s Hs) as (Hwf & Hn & Hi & Hl).
  destruct c as [|labels preds]; [done|]. simpl.
  rewrite update_state by done.
  destruct (scored (labels, preds)) as [|lp sc] eqn:Hsc; [done|].
  destruct (add_samples_metric (lp :: sc) s) as [Hm Hni]; [done|].
  eexists. split; [exact Hm|]. split; [exact Hni|].
  rewrite Hl.
  destruct (counts_ok_mean 19 (_tp (add_samples (lp :: sc) s))
              (_denom (add_samples (lp :: sc) s))) as [Hlo Hhi]; [lia| |].
  - apply counts_ok_add_samples; [done..|]. by apply reachable_counts_ok.
  - change (Z.of_nat 19) with 19 in *. split; [done|]. by apply Qlt_le_weak.
Qed.

Lemma get_fields (s : IoUMetric) :
  name s = "IoU"%string →
  (sum_metric s = None → num_inst s = None → get s = Raise AttributeError) ∧
  (∀ v, sum_metric s = Some v → num_inst s = Some 1 → get s = Ok ("IoU"%string, Fin v)).
Proof.
  intros Hn. unfold get. split.
  - by intros -> ->.
  - intros v -> ->. rewrite Hn. simpl. by rewrite Qdiv_1_r_eq.
Qed.

(** X6: what [get] returns after any series of [reset] and [update] calls
    on the notebook's metric.  As long as no call has scored an array pair,
    the two attributes [get] reads do not exist and it raises
    [AttributeError]; once some call has scored a pair, whatever came after
    it, [num_inst] is 1 and [get] returns the stored value, which lies
    between 0 and 1.  It never returns [nan]. *)
Theorem get_after_calls (cs : list call) :
  (Forall (λ c, scored_by c = []) cs →
   sum_metric (run cs) = None ∧ num_inst (run cs) = None ∧
   get (run cs) = Raise AttributeError) ∧
  (Exists (λ c, scored_by c ≠ []) cs →
   ∃ v, sum_metric (run cs) = Some v ∧ num_inst (run cs) = Some 1 ∧
        get (run cs) = Ok ("IoU"%string, Fin v) ∧ (0 <= v <= 1)%Q).
Proof.
  assert (Hfields :
    (Forall (λ c, scored_by c = []) cs →
     sum_metric (run cs) = None ∧ num_inst (run cs) = None) ∧
    (Exists (λ c, scored_by c ≠ []) cs →
     ∃ v, sum_metric (run cs) = Some v ∧ num_inst (run cs) = Some 1 ∧ (0 <= v <= 1)%Q)).
  { induction cs as [|c cs [IHn IHs]] using rev_ind.
    - split; [done|]. by intros ?%Exists_nil.
    - rewrite run_snoc.
      pose proof (do_call_metric c (run cs) (run_reachable cs)) as Hc.
      destruct (scored_by c) as [|lp sc] eqn:Hsc.
      + destruct Hc as [-> ->]. split.
        * intros [Hcs _]%Forall_app. by apply IHn.
        * intros [Hcs|Hx]%Exists_app; [by apply IHs|].
          apply Exists_cons in Hx as [Hx|?%Exists_nil]; [|done]. by rewrite Hsc in Hx.
      + split.
        * intros [_ Hx]%Forall_app. apply Forall_cons in Hx as [Hx _].
          by rewrite Hsc in Hx.
        * intros _. exact Hc. }
  destruct Hfields as [Hnone Hsome].
  destruct (reachable_inv _ (run_reachable cs)) as (_ & Hn & _).
  destruct (get_fields (run cs) Hn) as [Hg1 Hg2].
  split.
  - intros Hcs. destruct (Hnone Hcs) as [H1 H2]. split_and!; [done..|]. by apply Hg1.
  - intros Hcs. destruct (Hsome Hcs) as (v & H1 & H2 & Hv).
    exists v. split; [done|]. split; [done|]. split; [by apply Hg2|done].
Qed.

(** X7: [update] never lowers a counter, whether it returns or raises. *)
Theorem update_counters_grow (s : IoUMetric) (labels preds : list NDArray) (j : nat) :
  reachable s → (j < 19)%nat →
  ∃ t t' d d' : Q,
    _tp s !! j = Some t ∧ _tp (update labels preds s).2 !! j = Some t' ∧
    _denom s !! j = Some d ∧ _denom (update labels preds s).2 !! j = Some d' ∧
    (t <= t')%Q ∧ (d <= d')%Q.
Proof.
  intros Hs Hj. destruct (reachable_inv s Hs) as (Hwf & _ & Hi & Hl).
  destruct Hwf as (_ & _ & Htp & Hden). rewrite Hl in Htp, Hden.
  rewrite update_state by (by apply reachable_inv).
  rewrite add_samples_tp, add_samples_denom, Hi. unfold add_counts.
  rewrite !list_lookup_imap.
  destruct (lookup_lt_is_Some_2 (_tp s) j) as [t Ht]; [rewrite Htp; simpl; lia|].
  destruct (lookup_lt_is_Some_2 (_denom s) j) as [d Hd]; [rewrite Hden; simpl; lia|].
  rewrite Ht, Hd. simpl. eexists _, _, _, _. do 4 (split; [done|]). split.
  - assert (0 <= inject_Z (total_tp (Z.of_nat j) (scored (labels, preds))))%Q.
    { change 0%Q with (inject_Z 0). rewrite <- Zle_Qle.
      apply Zsum_nonneg, Forall_fmap, Forall_true. intros lp. apply pix_tp_nonneg. }
    lra.
  - assert (0 <= inject_Z (total_denom 255 (Z.of_nat j) (scored (labels, preds))))%Q.
    { change 0%Q with (inject_Z 0). rewrite <- Zle_Qle.
      apply Zsum_nonneg, Forall_fmap, Forall_true. intros lp.
      apply pix_denom_nonneg. lia. }
    lra.
Qed.

(** X8: A metric built with no class: every [update] whose first pair passes
    the length check raises [ZeroDivisionError] at [iou /= self._label_num]
    and leaves the object as it was. *)
Theorem update_without_classes (s : IoUMetric) (l p : NDArray) (labels preds : list NDArray) :
  _label_num s = 0 →
  length labels = length preds →
  check_label_shapes (asnumpy_int32 l) (argmax_channel_int32 p) 0 = Ok tt →
  update (l :: labels) (p :: preds) s = (Raise ZeroDivisionError, s).
Proof.
  intros Hl Hlen Hc. rewrite update_zip by (simpl; lia).
  cbn [zip_with for_]. rewrite bind_unfold. simpl.
  unfold update_sample. rewrite !bind_unfold. unfold lift, gets. rewrite Hc. simpl.
  rewrite !bind_unfold. rewrite Hl. simpl. done.
Qed.

(** X9: The assertion is not idle: when the ignore label is itself a class
    index [j], a pair with more pixels both predicted and labelled [j] than
    pixels with exactly one of the two makes [update] raise
    [AssertionError]. *)
Theorem update_asserts_on_ignored_class (s : IoUMetric) (l p : NDArray)
    (labels preds : list NDArray) (pix : list (Z * Z)) (j : nat) :
  _ignore_label s = Z.of_nat j →
  (j < Z.to_nat (_label_num s))%nat →
  length (_tp s) = Z.to_nat (_label_num s) →
  length (_denom s) = Z.to_nat (_label_num s) →
  length labels = length preds →
  sample_pixels l p = Ok pix →
  count (λ '(pr, lb), xorb (pr =? Z.of_nat j) (lb =? Z.of_nat j)) pix
  < count (λ '(pr, lb), (pr =? Z.of_nat j) && (lb =? Z.of_nat j)) pix →
  (update (l :: labels) (p :: preds) s).1 = Raise AssertionError.
Proof.
  intros Hi Hj Htp Hden Hlen Hpix Hlt. rewrite update_zip by (simpl; lia).
  cbn [zip_with for_]. rewrite bind_unfold. simpl.
  unfold sample_pixels in Hpix.
  unfold update_sample. rewrite !bind_unfold. unfold lift, gets.
  destruct (check_label_shapes _ _ 0) as [[]|?]; [|done]. simpl in *.
  rewrite !bind_unfold.
  pose proof (class_loop_assert _ _ pix j (Z.to_nat (_label_num s)) 0%nat 0%Q s Hpix Hi)
    as Hloop.
  destruct (class_loop _ _ _ _ s) as [r s'] eqn:Hcl. simpl in Hloop.
  rewrite Hloop; [done|lia|lia|lia|]. by rewrite pix_denom_self.
Qed.

End MetricExtras.

(** ** Exact predictions (claim C4) *)

Lemma exact_match_counts ign label pred_label j :
  j ≠ ign → exact_match ign label pred_label →
  ∃ pix, pixels label pred_label = Ok pix ∧
         pix_tp j pix = count (λ x, x =? j) (flat label).
Proof.
  unfold exact_match, pixels, broadcast. intros Hj Hm.
  pose proof (Forall2_length _ _ _ Hm) as Hlen.
  rewrite decide_True by done. eexists; split; [done|].
  unfold pix_tp.
  induction Hm as [|l p ls ps Hlp _ IH]; [done|].
  cbn [zip zip_with]. rewrite !count_cons. rewrite IH by (simpl in Hlen; lia).
  destruct (Z.eqb_spec p j), (Z.eqb_spec l j); simpl; try lia.
  all: exfalso; lia.
Qed.

Lemma present_term_bounds (t : Z) :
  0 < t → (1 - eps <= inject_Z t / (inject_Z t + eps) <= 1)%Q.
Proof.
  intros Ht. assert (1 ≤ t) as Ht1 by lia.
  rewrite Zle_Qle in Ht1. change (inject_Z 1) with 1%Q in Ht1.
  assert (0 < inject_Z t + eps)%Q as Hpos by (unfold eps; lra).
  split.
  - apply Qle_shift_div_l; [done|]. unfold eps in *. lra.
  - apply Qle_shift_div_r; [done|]. unfold eps. lra.
Qed.

Lemma inject_Z_eq_bool (t : Z) : Qeq_bool (inject_Z t) 0 = (t =? 0).
Proof.
  unfold Qeq_bool, inject_Z. simpl. rewrite Z.mul_1_r.
  destruct t; done.
Qed.

Lemma iou_sum_present (tp denom : list Q) (js : list nat) : ∀ iou : Q,
  Forall (λ j, ∃ t : Z, 0 ≤ t ∧ tp !!! j = inject_Z t ∧ denom !!! j = inject_Z t) js →
  (iou + inject_Z (count (λ j, negb (Qeq_bool (tp !!! j) 0)) js) * (1 - eps)
   <= iou_sum tp denom js iou
   <= iou + inject_Z (count (λ j, negb (Qeq_bool (tp !!! j) 0)) js))%Q.
Proof.
  induction js as [|j js IH]; intros iou Hjs.
  - unfold iou_sum. change (count _ []) with 0. cbn [foldl].
    change (inject_Z 0) with 0%Q. lra.
  - apply Forall_cons in Hjs as [(t & Ht & Htp & Hden) Hjs].
    specialize (IH (iou + iou_term tp denom j)%Q Hjs).
    change (iou_sum tp denom (j :: js) iou)
      with (iou_sum tp denom js (iou + iou_term tp denom j)%Q).
    rewrite count_cons, inject_Z_plus.
    set (k := inject_Z (count (λ j, negb (Qeq_bool (tp !!! j) 0)) js)) in *.
    assert (iou_term tp denom j = inject_Z t / (inject_Z t + eps))%Q as Hterm.
    { unfold iou_term. by rewrite Htp, Hden. }
    rewrite Htp, inject_Z_eq_bool.
    destruct (Z.eqb_spec t 0) as [->|Hne].
    + assert (iou_term tp denom j == 0)%Q as H0 by (by rewrite Hterm).
      simpl. change (inject_Z 0) with 0%Q. unfold eps in *. lra.
    + pose proof (present_term_bounds t ltac:(lia)) as Hb. rewrite <- Hterm in Hb.
      simpl. change (inject_Z 1) with 1%Q. unfold eps in *. lra.
Qed.

Section ExactPredictions.
Context {NDArray : Type} {ops : NDArrayOps NDArray}.

Lemma exact_match_total (sc : list (NDArray * NDArray)) (j : nat) :
  (j < 19)%nat →
  Forall (λ lp, exact_match 255 (asnumpy_int32 lp.1) (argmax_channel_int32 lp.2)) sc →
  total_tp (Z.of_nat j) sc = total_denom 255 (Z.of_nat j) sc ∧
  total_tp (Z.of_nat j) sc = labelled (Z.of_nat j) sc.
Proof.
  intros Hj Hm. unfold total_tp, total_denom, labelled.
  split; f_equal; apply list_fmap_ext; intros i lp Hin%list_elem_of_lookup_2;
    rewrite Forall_forall in Hm; specialize (Hm _ Hin).
  - destruct (exact_match_pixels _ _ _ Hm) as (pix & Hpix & Hall).
    unfold sample_pix. rewrite Hpix. apply pix_tp_eq_denom; [lia|done].
  - destruct (exact_match_counts 255 _ _ (Z.of_nat j) ltac:(lia) Hm) as (pix & Hpix & Hc).
    unfold sample_pix. by rewrite Hpix.
Qed.

(** C4 (amended): let the counters of a metric agree, [_tp = _denom], as
    they do after [reset()] and after batches of exact predictions only.
    When it is updated with a non-empty batch whose arg-max predictions
    equal the ground truth on every pixel not labelled 255, every class [j]
    ends with [_tp[j] = _denom[j] = t], its earlier count plus the number of
    the batch's pixels labelled [j]; its term [_tp[j] / (_denom[j] + 1e-6)]
    is [t / (t + 1e-6)]: 0 when [t] is 0, and otherwise within 1e-6 of 1 and
    not above it.  The mean that [get] returns is the sum of the 19 terms
    divided by 19, so it is within 1e-6 of [k / 19] and not above it, where
    [k] is the number of classes whose count is not 0. *)
Theorem C4_exact_match_contributions (s1 s : IoUMetric) (labels preds : list NDArray) :
  reachable s1 →
  _tp s1 = _denom s1 →
  update labels preds s1 = (Ok tt, s) →
  labels ≠ [] →
  Forall (λ lp, exact_match 255 (asnumpy_int32 lp.1) (argmax_channel_int32 lp.2))
         (zip labels preds) →
  _tp s = _denom s ∧
  (∀ j, (j < 19)%nat →
     ∃ t0 : Z,
       0 ≤ t0 ∧ _tp s1 !! j = Some (inject_Z t0) ∧
       let t := t0 + labelled (Z.of_nat j) (zip labels preds) in
       _tp s !! j = Some (inject_Z t) ∧
       _denom s !! j = Some (inject_Z t) ∧
       iou_term (_tp s) (_denom s) j = (inject_Z t / (inject_Z t + eps))%Q ∧
       (t = 0 → (iou_term (_tp s) (_denom s) j == 0)%Q) ∧
       (t ≠ 0 → (1 - eps <= iou_term (_tp s) (_denom s) j <= 1)%Q)) ∧
  ∃ v, get s = Ok ("IoU"%string, Fin v) ∧
       v = mean_iou 19 (_tp s) (_denom s) ∧
       (inject_Z (classes_present (_tp s) 19) * (1 - eps) / 19 <= v
        <= inject_Z (classes_present (_tp s) 19) / 19)%Q.
Proof.
  intros Hs Heq Hr Hne Hm.
  destruct (reachable_inv s1 Hs) as (Hwf & Hn & Hi & Hl).
  pose proof (update_state labels preds s1 Hwf) as Hst.
  destruct (update_Ok labels preds s1 Hwf) as (Hlen & Hsc & _); [by rewrite Hr|].
  rewrite Hr, Hsc in Hst. simpl in Hst.
  assert (zip labels preds ≠ []) as Hne' by (destruct labels, preds; simpl in *; done).
  set (sc := zip labels preds) in *.
  pose proof (add_samples_tp sc s1) as Htp.
  pose proof (add_samples_denom sc s1) as Hden.
  destruct (add_samples_metric sc s1 Hne') as [Hsm Hni].
  destruct (add_samples_frame sc s1) as (Hname & _ & _).
  rewrite <- Hst in Htp, Hden, Hsm, Hni, Hname. rewrite Hi in Hden. rewrite Hl in Hsm.
  destruct (reachable_counts_ok s1 Hs) as (T & D & HT & HD & HlT & HlD & Hle).
  assert (Heqc : _tp s = _denom s).
  { rewrite Htp, Hden, <- Heq. apply add_counts_ext. intros j Hj.
    apply exact_match_total; [|done]. rewrite HT, length_fmap in Hj. lia. }
  assert (Hcls : ∀ j, (j < 19)%nat →
     ∃ t0 : Z,
       0 ≤ t0 ∧ _tp s1 !! j = Some (inject_Z t0) ∧
       _tp s !! j = Some (inject_Z (t0 + labelled (Z.of_nat j) sc)) ∧
       0 ≤ labelled (Z.of_nat j) sc).
  { intros j Hj.
    destruct (lookup_lt_is_Some_2 T j) as [t0 Ht0]; [lia|].
    destruct (lookup_lt_is_Some_2 D j) as [d0 Hd0]; [lia|].
    pose proof (Forall2_lookup_lr _ _ _ _ _ _ Hle Ht0 Hd0) as Hb. simpl in Hb.
    destruct (exact_match_total sc j Hj Hm) as [_ Hlab].
    exists t0. split; [lia|]. split; [by rewrite HT, list_lookup_fmap, Ht0|].
    split.
    - rewrite Htp. unfold add_counts. rewrite list_lookup_imap, HT, list_lookup_fmap, Ht0.
      simpl. by rewrite Hlab, inject_Z_plus.
    - rewrite <- Hlab. apply Zsum_nonneg, Forall_fmap, Forall_true.
      intros lp. apply pix_tp_nonneg. }
  assert (Hterm : ∀ j t, _tp s !! j = Some (inject_Z t) →
            iou_term (_tp s) (_denom s) j = (inject_Z t / (inject_Z t + eps))%Q).
  { intros j t Hj. unfold iou_term. rewrite <- Heqc.
    by rewrite (list_lookup_total_correct _ _ _ Hj). }
  split; [done|]. split.
  - intros j Hj. destruct (Hcls j Hj) as (t0 & Ht0 & Hs1 & Hsj & Hlab).
    exists t0. split; [done|]. split; [done|]. cbv zeta.
    split; [done|]. split; [by rewrite <- Heqc|].
    split; [by apply Hterm|]. split.
    + intros H0. rewrite (Hterm j _ Hsj), H0. reflexivity.
    + intros H0. rewrite (Hterm j _ Hsj). apply present_term_bounds. lia.
  - exists (mean_iou 19 (_tp s) (_denom s)). split.
    { unfold get. rewrite Hni, Hsm, Hname, Hn. simpl. by rewrite Qdiv_1_r_eq. }
    split; [done|].
    unfold mean_iou, classes_present.
    destruct (iou_sum_present (_tp s) (_denom s) (seq 0 (Z.to_nat 19)) 0%Q) as [Hlo Hhi].
    { apply Forall_forall. intros j Hj%elem_of_seq.
      destruct (Hcls j ltac:(simpl in Hj; lia)) as (t0 & Ht0 & Hs1 & Hsj & Hlab).
      exists (t0 + labelled (Z.of_nat j) sc). split; [lia|].
      split; [|rewrite <- Heqc]; by rewrite (list_lookup_total_correct _ _ _ Hsj). }
    change (Z.to_nat 19) with 19%nat in *.
    set (k := inject_Z (count (λ j, negb (Qeq_bool (_tp s !!! j) 0)) (seq 0 19))) in *.
    set (S := iou_sum (_tp s) (_denom s) (seq 0 19) 0) in *.
    change (inject_Z 19) with 19%Q.
    split.
    + unfold Qdiv. apply Qmult_le_compat_r; [unfold eps in *; lra|done].
    + unfold Qdiv. apply Qmult_le_compat_r; [lra|done].
Qed.
End ExactPredictions.

(** ** More on the sample-list builder *)

Lemma to_int_not_nil (n : Z) :
  Z.to_int n ≠ Decimal.Pos Decimal.Nil ∧ Z.to_int n ≠ Decimal.Neg Decimal.Nil.
Proof.
  destruct n as [|p|p]; simpl; (split; [|]); try done;
    intros [= H]; by apply DecimalPos.Unsigned.to_uint_nonnil in H.
Qed.

Lemma str_inj (n m : Z) : str n = str m → n = m.
Proof.
  unfold str. intros H. apply DecimalZ.to_int_inj.
  apply (f_equal NilZero.int_of_string) in H.
  destruct (to_int_not_nil n), (to_int_not_nil m).
  rewrite !NilZero.isi in H by done. by simplify_eq.
Qed.

Lemma crops_lookup (index : Z) (p l : string) (r : nat) :
  (r < 7)%nat →
  crops index p l !! r
  = Some [str index; p; l; "512"%string; str (256 * (Z.of_nat r + 1))].
Proof.
  intros Hr. do 7 (destruct r as [|r]; [done|]). lia.
Qed.

Lemma concat_crops_lookup (m : list string) : ∀ (f : nat → Z) (g : string → string) (q r : nat),
  (r < 7)%nat →
  concat (imap (λ i p, crops (f i) p (g p)) m) !! (q * 7 + r)%nat
  = m !! q ≫= λ p, crops (f q) p (g p) !! r.
Proof.
  induction m as [|p m IH]; intros f g q r Hr; [done|].
  rewrite imap_cons. cbn [concat].
  change ((λ i p, crops (f i) p (g p)) ∘ S) with (λ i p, crops ((f ∘ S) i) p (g p)).
  destruct q as [|q].
  - by rewrite lookup_app_l by (simpl; lia).
  - rewrite lookup_app_r by (simpl; lia).
    replace (S q * 7 + r - length (crops (f 0%nat) p (g p)))%nat with (q * 7 + r)%nat
      by (simpl; lia).
    by rewrite IH.
Qed.

(** X10: Reading the manifest by position: record number [q * 7 + r] (from 0,
    [r < 7]) belongs to the matched pair number [q]; it carries the index
    [q + 1], that pair's image and label paths, width 512 and height
    [256 * (r + 1)]. *)
Theorem val_lst_lookup (fs : FileSystem) (data_dir label_dir : string) (q r : nat) :
  (r < 7)%nat →
  val_lst fs data_dir label_dir !! (q * 7 + r)%nat
  = (λ p, [str (Z.of_nat q + 1); p; label_path data_dir label_dir p; "512"%string;
           str (256 * (Z.of_nat r + 1))])
    <$> matched_images fs data_dir label_dir !! q.
Proof.
  intros Hr. rewrite val_lst_spec.
  rewrite (concat_crops_lookup _ (λ i, Z.of_nat i + 1) (label_path data_dir label_dir))
    by done.
  destruct (matched_images fs data_dir label_dir !! q) as [p|]; [|done].
  simpl. by rewrite crops_lookup.
Qed.

Lemma val_lst_lookup_inv fs d l (a : nat) (rec : list string) :
  val_lst fs d l !! a = Some rec →
  ∃ p, matched_images fs d l !! (a / 7)%nat = Some p ∧
       rec = [str (Z.of_nat (a / 7) + 1); p; label_path d l p; "512"%string;
              str (256 * (Z.of_nat (a mod 7) + 1))].
Proof.
  intros Ha. pose proof (Nat.div_mod_eq a 7) as Hdm.
  pose proof (Nat.mod_upper_bound a 7 ltac:(lia)) as Hr.
  replace a with ((a / 7) * 7 + a mod 7)%nat in Ha at 1 by lia.
  rewrite val_lst_spec in Ha.
  rewrite (concat_crops_lookup _ (λ i, Z.of_nat i + 1) (label_path d l)) in Ha by done.
  destruct (matched_images fs d l !! (a / 7)%nat) as [p|]; [|done].
  simpl in Ha. rewrite crops_lookup in Ha by done. exists p. by simplify_eq.
Qed.

(** X11: The index field names the pair: two records of the manifest with the
    same index belong to the same matched pair, and so carry the same image
    path and the same label path. *)
Theorem val_lst_index_names_pair (fs : FileSystem) (data_dir label_dir : string)
    (a b : nat) (rec1 rec2 : list string) :
  val_lst fs data_dir label_dir !! a = Some rec1 →
  val_lst fs data_dir label_dir !! b = Some rec2 →
  rec1 !! 0%nat = rec2 !! 0%nat →
  (a / 7 = b / 7)%nat ∧ rec1 !! 1%nat = rec2 !! 1%nat ∧ rec1 !! 2%nat = rec2 !! 2%nat.
Proof.
  intros (p1 & Hp1 & ->)%val_lst_lookup_inv (p2 & Hp2 & ->)%val_lst_lookup_inv Hidx.
  set (qa := (a / 7)%nat) in *. set (qb := (b / 7)%nat) in *.
  simpl in Hidx. injection Hidx as Hidx. apply str_inj in Hidx.
  assert (qa = qb) as Hq by lia. rewrite Hq in Hp1.
  split; [done|]. by simplify_eq.
Qed.

(** X12: No record occurs twice in the manifest, even when [glob] lists a path
    twice: the index and the crop height together single out a record. *)
Theorem val_lst_NoDup (fs : FileSystem) (data_dir label_dir : string) :
  NoDup (val_lst fs data_dir label_dir) ∧
  ∀ a b rec1 rec2,
    val_lst fs data_dir label_dir !! a = Some rec1 →
    val_lst fs data_dir label_dir !! b = Some rec2 →
    rec1 !! 0%nat = rec2 !! 0%nat → rec1 !! 4%nat = rec2 !! 4%nat → a = b.
Proof.
  assert (Hpos : ∀ a b rec1 rec2,
    val_lst fs data_dir label_dir !! a = Some rec1 →
    val_lst fs data_dir label_dir !! b = Some rec2 →
    rec1 !! 0%nat = rec2 !! 0%nat → rec1 !! 4%nat = rec2 !! 4%nat → a = b).
  { intros a b rec1 rec2 (p1 & Hp1 & ->)%val_lst_lookup_inv
      (p2 & Hp2 & ->)%val_lst_lookup_inv Hidx Hh.
    pose proof (Nat.div_mod_eq a 7) as Ha. pose proof (Nat.div_mod_eq b 7) as Hb.
    set (qa := (a / 7)%nat) in *. set (qb := (b / 7)%nat) in *.
    set (ra := (a mod 7)%nat) in *. set (rb := (b mod 7)%nat) in *.
    simpl in Hidx, Hh. injection Hidx as Hidx. injection Hh as Hh.
    apply str_inj in Hidx, Hh. lia. }
  split; [|exact Hpos].
  apply NoDup_alt. intros a b rec Ha Hb. by apply (Hpos a b rec rec).
Qed.

(** X13: The manifest does not depend on the order in which [glob] lists the
    files: two disks with the same files give the same records and the same
    [val.lst]. *)
Theorem val_lst_glob_order (fs1 fs2 : FileSystem) (data_dir label_dir : string) :
  (∀ pat, glob_glob fs1 pat ≡ₚ glob_glob fs2 pat) →
  (∀ p, os_path_isfile fs1 p = os_path_isfile fs2 p) →
  val_lst fs1 data_dir label_dir = val_lst fs2 data_dir label_dir ∧
  val_out fs1 data_dir label_dir = val_out fs2 data_dir label_dir.
Proof.
  intros Hglob Hfile.
  assert (all_images fs1 data_dir = all_images fs2 data_dir) as Himg.
  { destruct (all_images_sorted fs1 data_dir) as [Hs1 Hp1].
    destruct (all_images_sorted fs2 data_dir) as [Hs2 Hp2].
    apply (StronglySorted_unique String.le); [done..|].
    by rewrite Hp1, Hp2. }
  assert (val_lst fs1 data_dir label_dir = val_lst fs2 data_dir label_dir) as Hlst.
  { rewrite !val_lst_spec. unfold matched_images. rewrite Himg. f_equal. f_equal.
    apply list_filter_iff. intros p. by rewrite Hfile. }
  split; [done|]. unfold val_out. by rewrite Hlst.
Qed.

(** ** Properties of the evaluation loop *)

Section EvalLoopSpec.
Context {NDArray : Type} {ops : NDArrayOps NDArray}.

Lemma progress_lines_S batch_size nbatch done_ :
  progress_lines batch_size nbatch (S done_)
  = (if nbatch `mod` 10 =? 0
     then [str nbatch +:+ " / " +:+ str (3500 / batch_size) +:+ " batches done"]
     else []) ++ progress_lines batch_size (nbatch + 1) done_.
Proof.
  unfold progress_lines. rewrite seqZ_cons by lia.
  replace (Z.pred (Z.of_nat (S done_))) with (Z.of_nat done_) by lia.
  replace (Z.succ nbatch) with (nbatch + 1) by lia.
  destruct (Z.eqb_spec (nbatch `mod` 10) 0) as [Hm|Hm].
  - by rewrite filter_cons_True by done.
  - by rewrite filter_cons_False by done.
Qed.

Lemma updates_cons (b : batch) (bs : list batch) (s : IoUMetric) :
  updates (b :: bs) s
  = match update b.1 b.2 s with
    | (Ok _, s') => updates bs s'
    | (Raise e, s') => (Raise e, s')
    end.
Proof. unfold updates. cbn [for_]. by rewrite bind_unfold. Qed.

Lemma batch_loop_done batch_size (bs : list batch) : ∀ nbatch s out,
  batch_size ≠ 0 →
  ∃ done_ : nat,
    batch_loop batch_size nbatch bs s out
    = (updates bs s, out ++ progress_lines batch_size nbatch done_) ∧
    (done_ ≤ length bs)%nat ∧
    (updates (take done_ bs) s).1 = Ok tt ∧
    ((done_ < length bs)%nat → ∃ e, (updates (take (S done_) bs) s).1 = Raise e) ∧
    ((updates bs s).1 = Ok tt → done_ = length bs).
Proof.
  intros nbatch s out Hb. revert nbatch s out.
  induction bs as [|b bs IH]; intros nbatch s out.
  - exists 0%nat. cbn. rewrite app_nil_r. split_and!; [done..|lia|done].
  - cbn [batch_loop]. rewrite updates_cons.
    destruct (update b.1 b.2 s) as [[[]|e] s'] eqn:Hu.
    + unfold progress_line. destruct (Z.eqb_spec batch_size 0) as [?|_]; [done|].
      assert (∀ d, updates (take (S d) (b :: bs)) s = updates (take d bs) s') as Htake.
      { intros d. cbn [take]. by rewrite updates_cons, Hu. }
      destruct (Z.eqb_spec (nbatch `mod` 10) 0) as [Hm|Hm].
      * destruct (IH (nbatch + 1) s' (out ++ [str nbatch +:+ " / " +:+
                  str (3500 / batch_size) +:+ " batches done"]))
          as (d & -> & Hd & Hpre & Hnext & Hok).
        exists (S d). rewrite progress_lines_S.
        destruct (Z.eqb_spec (nbatch `mod` 10) 0); [|done].
        rewrite <- app_assoc. rewrite !Htake.
        split_and!; [done|simpl; lia|done| |].
        -- intros Hlt. apply Hnext. simpl in Hlt. lia.
        -- intros Hr. simpl. by rewrite Hok.
      * destruct (IH (nbatch + 1) s' out) as (d & -> & Hd & Hpre & Hnext & Hok).
        exists (S d). rewrite progress_lines_S.
        destruct (Z.eqb_spec (nbatch `mod` 10) 0); [done|].
        rewrite !Htake.
        split_and!; [done|simpl; lia|done| |].
        -- intros Hlt. apply Hnext. simpl in Hlt. lia.
        -- intros Hr. simpl. by rewrite Hok.
    + exists 0%nat. split_and!; [|simpl; lia|done| |done].
      * cbn. by rewrite app_nil_r.
      * intros _. exists e. cbn [take]. by rewrite updates_cons, Hu.
Qed.

(** X14: the evaluation loop resets the metric and then makes the [update]
    calls in a row, stopping at the first exception: its outcome and final
    object are those of the chained calls.  The lines it has printed are
    the progress lines of the batches [0 .. done_ - 1], one for each whose
    number is a multiple of 10, where [done_] is the number of batches
    completed: the first [done_] calls return, and the next one, if there is
    one, raises.  When the loop ends normally these are all the batches. *)
Theorem evaluate_spec (batch_size : Z) (bs : list batch) (s : IoUMetric) :
  batch_size ≠ 0 →
  ∃ done_ : nat,
    evaluate batch_size bs s
    = (updates bs (reset s), progress_lines batch_size 0 done_) ∧
    (done_ ≤ length bs)%nat ∧
    (updates (take done_ bs) (reset s)).1 = Ok tt ∧
    ((done_ < length bs)%nat →
     ∃ e, (updates (take (S done_) bs) (reset s)).1 = Raise e) ∧
    ((updates bs (reset s)).1 = Ok tt → done_ = length bs).
Proof.
  intros Hb. unfold evaluate.
  destruct (batch_loop_done batch_size bs 0 (reset s) [] Hb)
    as (d & Heq & Hd & Hpre & Hnext & Hok).
  exists d. by rewrite Heq.
Qed.

(** X15: When the evaluation loop ends normally after scoring at least one array
    pair, the value that the last cell prints, [metric.get()[1]], is the mean
    over the 19 classes of [tp[j] / (denom[j] + 1e-6)] with the counts summed
    over every array pair of every batch; nothing of the metric's earlier use
    enters it. *)
Theorem evaluate_result (batch_size : Z) (bs : list batch) (s0 s : IoUMetric)
    (out : list string) :
  reachable s0 →
  evaluate batch_size bs s0 = (Ok tt, s, out) →
  samples_of bs ≠ [] →
  get s = Ok ("IoU"%string,
              Fin (mean_iou 19 (running_tp 19 (samples_of bs))
                               (running_denom 255 19 (samples_of bs)))).
Proof.
  intros Hs He Hne.
  assert (updates bs (reset s0) = (Ok tt, s)) as Hu.
  { unfold evaluate in He. clear Hne.
    assert (∀ nb s1 out1, batch_loop batch_size nb bs s1 out1 = (Ok tt, s, out) →
              updates bs s1 = (Ok tt, s)) as Hgen; [|by eapply Hgen].
    clear He Hs. induction bs as [|b bs IH]; intros nb s1 out1 Hl.
    - cbn in Hl. by simplify_eq.
    - cbn [batch_loop] in Hl. unfold updates. cbn [for_]. rewrite bind_unfold.
      fold (updates bs).
      destruct (update b.1 b.2 s1) as [[[]|e] s'] eqn:Hu; [|done].
      destruct (nb `mod` 10 =? 0); [destruct (progress_line batch_size nb); [|done]|];
        by eapply IH. }
  pose proof (reachable_inv _ (reach_reset _ Hs)) as (Hwf & _).
  destruct (updates_Ok _ _ _ Hwf Hu) as [-> Hsc].
  rewrite calls_state, Hsc by done.
  by apply (scored_from_reset s0 (samples_of bs) Hs).
Qed.

End EvalLoopSpec.

(** ** The properties above on concrete inputs *)

Lemma check_full_shapes_witness :
  (check_label_shapes lab01 pred11 1 = Ok tt ↔ shape lab01 = shape pred11) ∧
  check_label_shapes lab01 pred11 0 = Ok tt ∧
  pixels lab01 pred11 = Ok (zip (flat pred11) (flat lab01)).
Proof.
  destruct (check_full_shapes lab01 pred11 1 ltac:(lia)) as (H1 & _ & H3).
  split; [exact H1|].
  apply H3; [reflexivity|discriminate|reflexivity|reflexivity].
Defined.

Lemma update_app_witness :
  update ([px0] ++ [lab01]) ([px0] ++ [pred11]) met
  = (update [px0] [px0] ≫= λ _, update [lab01] [pred11]) met.
Proof. exact (update_app [px0] [lab01] [px0] [pred11] met eq_refl eq_refl). Defined.

Lemma update_returns_iff_witness :
  (update [lab01] [pred11] met).1 = Ok tt ↔
  length [lab01] = length [pred11] ∧
  Forall (λ lp : ndarray * ndarray,
            (∃ n, py_len (asnumpy_int32 lp.1) = Ok n ∧
                  py_len (argmax_channel_int32 lp.2) = Ok n) ∧
            broadcastable (asnumpy_int32 lp.1) (argmax_channel_int32 lp.2))
         (zip [lab01] [pred11]).
Proof. exact (update_returns_iff met [lab01] [pred11] reach_met). Defined.

Lemma update_failure_keeps_prefix_witness :
  update ([px0] ++ lab01 :: [pred11]) ([px0] ++ px0 :: [pred11]) met
  = (Raise ValueError, met1) ∧
  (ValueError = ValueError ∨ ValueError = TypeError).
Proof.
  refine (update_failure_keeps_prefix met met1 [px0] [pred11] [px0] [pred11]
            lab01 px0 ValueError reach_met eq_refl eq_refl _ _).
  - vm_compute. reflexivity.
  - vm_compute. reflexivity.
Defined.

Lemma reachable_counters_witness :
  length (_tp met1) = 19%nat ∧ length (_denom met1) = 19%nat ∧
  ∃ t d : Z, _tp met1 !! 0%nat = Some (inject_Z t) ∧
             _denom met1 !! 0%nat = Some (inject_Z d) ∧ 0 ≤ t ≤ d.
Proof.
  refine (reachable_counters met1 0 _ _).
  - apply (reach_update met [px0] [px0]), reach_met.
  - lia.
Defined.

Lemma get_after_calls_witness :
  (sum_metric (run [call_reset; call_update [] []]) = None ∧
   num_inst (run [call_reset; call_update [] []]) = None ∧
   get (run [call_reset; call_update [] []]) = Raise AttributeError) ∧
  (∃ v, sum_metric (run [call_update [px0] [px0]; call_reset]) = Some v ∧
        num_inst (run [call_update [px0] [px0]; call_reset]) = Some 1 ∧
        get (run [call_update [px0] [px0]; call_reset]) = Ok ("IoU"%string, Fin v) ∧
        (0 <= v <= 1)%Q).
Proof.
  split.
  - apply (get_after_calls [call_reset; call_update [] []]).
    repeat constructor.
  - apply (get_after_calls [call_update [px0] [px0]; call_reset]).
    apply Exists_cons_hd. vm_compute. discriminate.
Defined.

Lemma update_counters_grow_witness :
  ∃ t t' d d' : Q,
    _tp met !! 1%nat = Some t ∧ _tp (update [lab01] [pred11] met).2 !! 1%nat = Some t' ∧
    _denom met !! 1%nat = Some d ∧
    _denom (update [lab01] [pred11] met).2 !! 1%nat = Some d' ∧
    (t <= t')%Q ∧ (d <= d')%Q.
Proof.
  refine (update_counters_grow met [lab01] [pred11] 1 reach_met _). lia.
Defined.

Lemma update_without_classes_witness :
  update [px0] [px0] met_no_class = (Raise ZeroDivisionError, met_no_class).
Proof.
  refine (update_without_classes met_no_class px0 px0 [] [] _ _ _); reflexivity.
Defined.

Lemma update_asserts_on_ignored_class_witness :
  (update [px0] [px0] met_ignore0).1 = Raise AssertionError.
Proof.
  refine (update_asserts_on_ignored_class met_ignore0 px0 px0 [] [] [(0, 0)] 0
            _ _ _ _ _ _ _); try reflexivity.
  vm_compute. lia.
Defined.

Lemma val_lst_lookup_witness :
  val_lst disk "data" "labels" !! (1 * 7 + 2)%nat
  = (λ p, [str (Z.of_nat 1 + 1); p; label_path "data" "labels" p; "512"%string;
           str (256 * (Z.of_nat 2 + 1))])
    <$> matched_images disk "data" "labels" !! 1%nat.
Proof. refine (val_lst_lookup disk "data" "labels" 1 2 _). lia. Defined.

Lemma val_lst_index_names_pair_witness :
  let rec1 := ["1"; "data/a/x_leftImg8bit.png"; "labels/a/x_gtFine_labelIds.png";
               "512"; "256"]%string in
  let rec2 := ["1"; "data/a/x_leftImg8bit.png"; "labels/a/x_gtFine_labelIds.png";
               "512"; "1024"]%string in
  (0 / 7 = 3 / 7)%nat ∧ rec1 !! 1%nat = rec2 !! 1%nat ∧ rec1 !! 2%nat = rec2 !! 2%nat.
Proof.
  intros rec1 rec2.
  refine (val_lst_index_names_pair disk "data" "labels" 0 3 rec1 rec2 _ _ _).
  - vm_compute. reflexivity.
  - vm_compute. reflexivity.
  - reflexivity.
Defined.

Lemma val_lst_NoDup_witness :
  NoDup (val_lst disk "data" "labels") ∧
  (val_lst disk "data" "labels" !! 8%nat
   = Some ["2"; "data/b/y_leftImg8bit.png"; "labels/b/y_gtFine_labelIds.png";
           "512"; "512"]%string →
   val_lst disk "data" "labels" !! 8%nat
   = Some ["2"; "data/b/y_leftImg8bit.png"; "labels/b/y_gtFine_labelIds.png";
           "512"; "512"]%string →
   8 = 8)%nat.
Proof.
  destruct (val_lst_NoDup disk "data" "labels") as [H1 H2].
  split; [exact H1|].
  intros Ha Hb. exact (H2 _ _ _ _ Ha Hb eq_refl eq_refl).
Defined.

Lemma val_lst_glob_order_witness :
  val_lst disk "data" "labels" = val_lst disk_swapped "data" "labels" ∧
  val_out disk "data" "labels" = val_out disk_swapped "data" "labels".
Proof.
  refine (val_lst_glob_order disk disk_swapped "data" "labels" _ _).
  - intros pat. simpl. destruct (decide (pat = "data/*/*.png")); [|reflexivity].
    apply perm_swap.
  - reflexivity.
Defined.

Lemma evaluate_spec_witness :
  let bs := [([px0], [px0]); ([lab01], [px0]); ([px0], [px0])] in
  (∃ done_ : nat,
    evaluate 16 bs met1 = (updates bs (reset met1), progress_lines 16 0 done_) ∧
    (done_ ≤ length bs)%nat ∧
    (updates (take done_ bs) (reset met1)).1 = Ok tt ∧
    ((done_ < length bs)%nat →
     ∃ e, (updates (take (S done_) bs) (reset met1)).1 = Raise e) ∧
    ((updates bs (reset met1)).1 = Ok tt → done_ = length bs)) ∧
  (evaluate 16 bs met1).1.1 = Raise ValueError ∧
  (evaluate 16 bs met1).2 = ["0 / 218 batches done"]%string ∧
  (evaluate 16 [([px0], [px0])] met1).1.1 = Ok tt ∧
  (evaluate 16 [([px0], [px0])] met1).2 = ["0 / 218 batches done"]%string.
Proof.
  intros bs. split.
  - refine (evaluate_spec 16 bs met1 _). lia.
  - split_and!; vm_compute; reflexivity.
Defined.

Lemma evaluate_result_witness :
  let bs := [([px0], [px0]); ([lab01], [pred11])] in
  get (evaluate 16 bs met1).1.2
  = Ok ("IoU"%string,
        Fin (mean_iou 19 (running_tp 19 (samples_of bs))
                         (running_denom 255 19 (samples_of bs)))).
Proof.
  intros bs.
  refine (evaluate_result 16 bs met1 _ (evaluate 16 bs met1).2 _ _ _).
  - apply (reach_update met [px0] [px0]), reach_met.
  - vm_compute. reflexivity.
  - discriminate.
Defined.

(** C4 on a metric that has scored one exact pixel of class 0 and is
    updated with the exact pair [lab01]: classes 0 and 1 have counts 2 and
    1, the other 17 classes have none. *)
Lemma C4_witness :
  let s := (update [lab01] [lab01] met1).2 in
  (_tp s = _denom s ∧
   (∀ j, (j < 19)%nat →
      ∃ t0 : Z,
        0 ≤ t0 ∧ _tp met1 !! j = Some (inject_Z t0) ∧
        let t := t0 + labelled (Z.of_nat j) (zip [lab01] [lab01]) in
        _tp s !! j = Some (inject_Z t) ∧
        _denom s !! j = Some (inject_Z t) ∧
        iou_term (_tp s) (_denom s) j = (inject_Z t / (inject_Z t + eps))%Q ∧
        (t = 0 → (iou_term (_tp s) (_denom s) j == 0)%Q) ∧
        (t ≠ 0 → (1 - eps <= iou_term (_tp s) (_denom s) j <= 1)%Q)) ∧
   ∃ v, get s = Ok ("IoU"%string, Fin v) ∧
        v = mean_iou 19 (_tp s) (_denom s) ∧
        (inject_Z (classes_present (_tp s) 19) * (1 - eps) / 19 <= v
         <= inject_Z (classes_present (_tp s) 19) / 19)%Q) ∧
  labelled 0 (zip [lab01] [lab01]) = 1 ∧
  classes_present (_tp s) 19 = 2 ∧
  (iou_term (_tp s) (_denom s) 0 == 2000000 # 2000001)%Q ∧
  (iou_term (_tp s) (_denom s) 1 == 1000000 # 1000001)%Q ∧
  (iou_term (_tp s) (_denom s) 2 == 0)%Q.
Proof.
  intros s. split.
  - refine (C4_exact_match_contributions met1 s [lab01] [lab01] _ _ _ _ _).
    + apply (reach_update met [px0] [px0]), reach_met.
    + vm_compute. reflexivity.
    + vm_compute. reflexivity.
    + discriminate.
    + repeat constructor.
  - split_and!; vm_compute; reflexivity.
Defined.
